(** * In-memory document store ([src/backend/database.py])

    A shallow embedding of [InMemoryCollection] and [init_database], and the
    properties of the collection abstraction stated in the specification.

    Python values are dynamically typed; the embedding keeps that: one type
    [value] of Python objects, and every operation that Python can reject at
    run time returns a [result] carrying the exception it raises.  A method
    that mutates [self.data] takes the store and returns the new one, also
    when it raises half way.

    Values are immutable trees: the model does not track object identity.
    Two things the code does are therefore out of its sight, and none of the
    properties below observes them: [insert_one] pops ["_id"] out of the
    caller's own dictionary (a document [D] below is the argument as it was
    passed), and list objects shared between fields change together under
    [append] and [remove].  Floating-point numbers and tuples are left out
    of [value]. *)

From Stdlib Require Import List String Ascii ZArith Bool Lia Sorted Permutation.
Import ListNotations.
Local Open Scope string_scope.
Local Open Scope list_scope.

Set Warnings "-register-all".

(* ================================================================== *)
(** * Python objects *)

Module Py.

(** The exceptions the modelled code can raise. *)
Inductive exn : Set :=
| KeyError
| TypeError
| AttributeError
| ValueError.

Inductive result (A : Type) : Type :=
| Ok (a : A)
| Raise (e : exn).

Arguments Ok {A} a.
Arguments Raise {A} e.

Definition bind {A B} (c : result A) (k : A -> result B) : result B :=
  match c with
  | Ok a => k a
  | Raise e => Raise e
  end.

Definition fmap {A B} (f : A -> B) (c : result A) : result B :=
  match c with
  | Ok a => Ok (f a)
  | Raise e => Raise e
  end.

Notation "x <- c ;; k" := (bind c (fun x => k))
  (at level 61, c at next level, right associativity).

(** [None], [bool], [int], [str], [list] and [dict] (with [str] keys, in
    insertion order). *)
Inductive value : Type :=
| VNone
| VBool (b : bool)
| VInt (n : Z)
| VStr (s : string)
| VList (l : list value)
| VDict (d : list (string * value)).

(** ** Insertion-ordered dictionaries with [str] keys *)

Section Dict.
Variable A : Type.

(** [d.get(k)] *)
Fixpoint dict_get (k : string) (d : list (string * A)) : option A :=
  match d with
  | [] => None
  | (k', v) :: r => if String.eqb k k' then Some v else dict_get k r
  end.

(** [k in d] *)
Definition dict_mem (k : string) (d : list (string * A)) : bool :=
  match dict_get k d with Some _ => true | None => false end.

(** [d[k] = v]: an existing key keeps its position, a new one goes last. *)
Fixpoint dict_set (k : string) (v : A) (d : list (string * A))
  : list (string * A) :=
  match d with
  | [] => [(k, v)]
  | (k', v') :: r =>
      if String.eqb k k' then (k', v) :: r else (k', v') :: dict_set k v r
  end.

(** [del d[k]] *)
Fixpoint dict_del (k : string) (d : list (string * A)) : list (string * A) :=
  match d with
  | [] => []
  | (k', v') :: r =>
      if String.eqb k k' then dict_del k r else (k', v') :: dict_del k r
  end.

(** [{**base, **d}]: the entries of [d] written into [base] in order. *)
Definition dict_update (base d : list (string * A)) : list (string * A) :=
  fold_left (fun acc kv => dict_set (fst kv) (snd kv) acc) d base.
End Dict.

Arguments dict_get {A} k d.
Arguments dict_mem {A} k d.
Arguments dict_set {A} k v d.
Arguments dict_del {A} k d.
Arguments dict_update {A} base d.

Definition doc : Type := list (string * value).

(** ** Equality, hashing, containment, iteration, ordering *)

(** [a == b].  [bool] is a subclass of [int]: [True == 1].  Dictionaries
    compare without regard to order. *)
Fixpoint py_eq (a b : value) {struct a} : bool :=
  match a, b with
  | VNone, VNone => true
  | VBool x, VBool y => Bool.eqb x y
  | VBool x, VInt n => Z.eqb (Z.b2z x) n
  | VInt n, VBool y => Z.eqb n (Z.b2z y)
  | VInt m, VInt n => Z.eqb m n
  | VStr s, VStr t => String.eqb s t
  | VList l, VList l' =>
      (fix eq_items (l l' : list value) {struct l} : bool :=
         match l, l' with
         | [], [] => true
         | x :: r, y :: r' => py_eq x y && eq_items r r'
         | _, _ => false
         end) l l'
  | VDict d, VDict d' =>
      Nat.eqb (List.length d) (List.length d') &&
      (fix eq_fields (d : list (string * value)) {struct d} : bool :=
         match d with
         | [] => true
         | (k, v) :: r =>
             match dict_get k d' with
             | Some v' => py_eq v v'
             | None => false
             end && eq_fields r
         end) d
  | _, _ => false
  end.

(** Objects with a [__hash__]: usable as dictionary keys and set members. *)
Definition hashable (v : value) : bool :=
  match v with
  | VList _ | VDict _ => false
  | _ => true
  end.

(** [t in s] on strings: [t] occurs in [s] as a substring. *)
Fixpoint is_substring (t s : string) : bool :=
  String.prefix t s ||
  match s with
  | EmptyString => false
  | String _ r => is_substring t r
  end.

(** [item in container] *)
Definition py_contains (item container : value) : result bool :=
  match container with
  | VList l => Ok (existsb (fun x => py_eq x item) l)
  | VStr s =>
      match item with
      | VStr t => Ok (is_substring t s)
      | _ => Raise TypeError
      end
  | VDict d =>
      if hashable item
      then Ok (match item with VStr k => dict_mem k d | _ => false end)
      else Raise TypeError
  | _ => Raise TypeError
  end.

(** [for x in v]: the items a [for] loop visits.  Text is a sequence of
    8-bit characters here, where Python walks code points: the two agree
    on ASCII text only. *)
Definition py_iter (v : value) : result (list value) :=
  match v with
  | VList l => Ok l
  | VStr s => Ok (map (fun c => VStr (String c EmptyString))
                      (list_ascii_of_string s))
  | VDict d => Ok (map (fun kv => VStr (fst kv)) d)
  | _ => Raise TypeError
  end.

(** [any(item in container for item in items)], left to right, stopping
    at the first hit. *)
Fixpoint py_any_in (items : list value) (container : value) : result bool :=
  match items with
  | [] => Ok false
  | item :: rest =>
      b <- py_contains item container ;;
      if b then Ok true else py_any_in rest container
  end.

(** [container[key]] for a [str] subscript. *)
Definition py_getitem (container : value) (key : string) : result value :=
  match container with
  | VDict d =>
      match dict_get key d with
      | Some v => Ok v
      | None => Raise KeyError
      end
  | _ => Raise TypeError
  end.

(** [a < b] between hashable objects: numbers with numbers, text with text. *)
Definition py_lt (a b : value) : result bool :=
  match a, b with
  | VStr s, VStr t => Ok (String.ltb s t)
  | VInt m, VInt n => Ok (Z.ltb m n)
  | VInt m, VBool y => Ok (Z.ltb m (Z.b2z y))
  | VBool x, VInt n => Ok (Z.ltb (Z.b2z x) n)
  | VBool x, VBool y => Ok (Z.ltb (Z.b2z x) (Z.b2z y))
  | _, _ => Raise TypeError
  end.

(** [s.add(x)] on a set kept as a duplicate-free list. *)
Definition set_add (x : value) (s : list value) : result (list value) :=
  if hashable x
  then Ok (if existsb (fun y => py_eq y x) s then s else s ++ [x])
  else Raise TypeError.

(** [sorted(s)] for a set [s]: any comparison sort gives the same list on
    distinct comparable members and raises on incomparable ones; the model
    inserts one member at a time. *)
Fixpoint sorted_insert (x : value) (l : list value) : result (list value) :=
  match l with
  | [] => Ok [x]
  | y :: r =>
      b <- py_lt x y ;;
      if b then Ok (x :: y :: r)
      else (r' <- sorted_insert x r ;; Ok (y :: r'))
  end.

Fixpoint py_sorted (l : list value) : result (list value) :=
  match l with
  | [] => Ok []
  | x :: r => r' <- py_sorted r ;; sorted_insert x r'
  end.

(** [s.split(".")] and ["." in s] *)
Definition dot : ascii := "."%char.

Fixpoint split_dot (s : string) : list string :=
  match s with
  | EmptyString => [EmptyString]
  | String c r =>
      if Ascii.eqb c dot then EmptyString :: split_dot r
      else match split_dot r with
           | h :: t => String c h :: t
           | [] => [String c EmptyString]
           end
  end.

Fixpoint contains_dot (s : string) : bool :=
  match s with
  | EmptyString => false
  | String c r => Ascii.eqb c dot || contains_dot r
  end.

End Py.
Import Py.

(* ================================================================== *)
(** * [class InMemoryCollection] *)

Module InMemoryCollection.

(** The backing store [self.data]: a dictionary from document id to the
    document's other fields, in insertion order.  Ids are Python objects,
    compared with [==] as dictionary keys are. *)
Definition store : Type := list (value * doc).

(** [self.data[k]] *)
Fixpoint store_lookup (k : value) (s : store) : option doc :=
  match s with
  | [] => None
  | (k', v) :: r => if py_eq k' k then Some v else store_lookup k r
  end.

Definition store_get (k : value) (s : store) : result doc :=
  if hashable k
  then match store_lookup k s with
       | Some v => Ok v
       | None => Raise KeyError
       end
  else Raise TypeError.

(** [self.data[k] = v] for a hashable [k]: an id already present keeps its
    key object and its position. *)
Fixpoint store_set (k : value) (v : doc) (s : store) : store :=
  match s with
  | [] => [(k, v)]
  | (k', v') :: r =>
      if py_eq k' k then (k', v) :: r else (k', v') :: store_set k v r
  end.

(** [{"_id": key, **value}] *)
Definition with_id (key : value) (value : doc) : doc :=
  dict_update [("_id", key)] value.

(** ** [find] *)

(** Lines 31-36: the walk along [nested_keys], from [nested_value] and the
    current [match] flag to their values when the loop ends. *)
Fixpoint descend (nested_keys : list string) (nested_value : value)
         (matched : bool) : value * bool :=
  match nested_keys with
  | [] => (nested_value, matched)
  | nkey :: rest =>
      match nested_value with
      | VDict d =>
          match dict_get nkey d with
          | Some v => descend rest v matched
          | None => (nested_value, false)
          end
      | _ => (nested_value, false)
      end
  end.

(** [isinstance(q_value, dict) and "$in" in q_value], giving
    [q_value["$in"]] when it holds. *)
Definition in_marker (q_value : value) : option value :=
  match q_value with
  | VDict qd => dict_get "$in" qd
  | _ => None
  end.

(** How one pass through the body of the clause loop (lines 24-42) ends:
    with [break], or by going on to the next clause; either way with a value
    of the [match] flag. *)
Inductive flow : Set :=
| Break (matched : bool)
| Continue (matched : bool).

Definition clause_step (key : value) (value : doc) (matched : bool)
           (q_key : string) (q_value : Py.value) : result flow :=
  if String.eqb q_key "_id" then
    if negb (py_eq key q_value) then Ok (Break false)
    else Ok (Continue matched)
  else if contains_dot q_key then
    let '(nested_value, matched) :=
      descend (split_dot q_key) (VDict value) matched in
    if matched then
      match in_marker q_value with
      | Some candidates =>
          items <- py_iter candidates ;;
          hit <- py_any_in items nested_value ;;
          Ok (Continue (if negb hit then false else matched))
      | None => Ok (Continue matched)
      end
    else Ok (Continue matched)
  else
    if negb (dict_mem q_key value) ||
       negb (match dict_get q_key value with
             | Some v => py_eq v q_value
             | None => false
             end)
    then Ok (Break false)
    else Ok (Continue matched).

(** The clause loop of lines 22-42 for one stored document. *)
Fixpoint match_query (key : value) (value : doc) (matched : bool)
         (query : doc) : result bool :=
  match query with
  | [] => Ok matched
  | (q_key, q_value) :: rest =>
      f <- clause_step key value matched q_key q_value ;;
      match f with
      | Break m => Ok m
      | Continue m => match_query key value m rest
      end
  end.

(** The document loop of lines 20-45. *)
Fixpoint find_loop (items : store) (query : doc) : result (list doc) :=
  match items with
  | [] => Ok []
  | (key, value) :: rest =>
      m <- match_query key value true query ;;
      found <- find_loop rest query ;;
      Ok (if m then with_id key value :: found else found)
  end.

Definition find (data : store) (query : option doc) : result (list doc) :=
  match query with
  | None => Ok (map (fun kv => with_id (fst kv) (snd kv)) data)
  | Some q => find_loop data q
  end.

(** ** [find_one] *)

Definition find_one (data : store) (query : option doc)
  : result (option doc) :=
  results <- find data query ;;
  Ok (match results with
      | [] => None
      | first :: _ => Some first
      end).

(** ** [insert_one] *)

Record InsertResult : Type := { inserted_id : value }.

(** The store after the call, and what the call returns or raises. *)
Definition insert_one (data : store) (doc : Py.doc)
  : store * result InsertResult :=
  match dict_get "_id" doc with
  | None => (data, Raise KeyError)
  | Some doc_id =>
      let doc := dict_del "_id" doc in
      if hashable doc_id
      then (store_set doc_id doc data, Ok {| inserted_id := doc_id |})
      else (data, Raise TypeError)
  end.

(** ** [count_documents] *)

(** [query or {}] *)
Definition query_or_empty (query : option doc) : doc :=
  match query with
  | None | Some [] => []
  | Some q => q
  end.

Definition count_documents (data : store) (query : option doc)
  : result nat :=
  fmap (@List.length doc) (find data (Some (query_or_empty query))).

(** ** [update_one] *)

Record UpdateResult : Type := { modified_count : Z }.

(** Lines 62-65 on the stored document [self.data[doc_id]]: [append] to the
    list under [key], or start one. *)
Definition push_field (d : doc) (key : string) (value : Py.value)
  : result doc :=
  if dict_mem key d then
    match dict_get key d with
    | Some (VList l) => Ok (dict_set key (VList (l ++ [value])) d)
    | _ => Raise AttributeError
    end
  else Ok (dict_set key (VList [value]) d).

(** [l.remove(value)]: drops the first item equal to [value]. *)
Fixpoint list_remove (value : Py.value) (l : list Py.value)
  : result (list Py.value) :=
  match l with
  | [] => Raise ValueError
  | x :: r =>
      if py_eq x value then Ok r
      else (r' <- list_remove value r ;; Ok (x :: r'))
  end.

(** Lines 68-69 on the stored document. *)
Definition pull_field (d : doc) (key : string) (value : Py.value)
  : result doc :=
  match dict_get key d with
  | None => Ok d
  | Some field =>
      present <- py_contains value field ;;
      if present then
        match field with
        | VList l =>
            l' <- list_remove value l ;;
            Ok (dict_set key (VList l') d)
        | _ => Raise AttributeError
        end
      else Ok d
  end.

(** One [key, value] pair of an operator, against [self.data[doc_id]]. *)
Definition on_stored (f : doc -> string -> Py.value -> result doc)
           (doc_id : Py.value) (data : store) (key : string)
           (value : Py.value) : result store :=
  d <- store_get doc_id data ;;
  d' <- f d key value ;;
  Ok (store_set doc_id d' data).

(** A [for key, value in ....items()] loop over the store: an exception
    leaves the pairs before it applied. *)
Fixpoint run_pairs (step : store -> string -> Py.value -> result store)
         (data : store) (pairs : doc) : store * result unit :=
  match pairs with
  | [] => (data, Ok tt)
  | (key, value) :: rest =>
      match step data key value with
      | Ok data' => run_pairs step data' rest
      | Raise e => (data, Raise e)
      end
  end.

(** [if name in update: for key, value in update[name].items(): ...] *)
Definition apply_operator (name : string)
           (step : store -> string -> Py.value -> result store)
           (data : store) (update : doc) : store * result unit :=
  match dict_get name update with
  | None => (data, Ok tt)
  | Some (VDict pairs) => run_pairs step data pairs
  | Some _ => (data, Raise AttributeError)
  end.

Definition update_one (data : store) (query : option doc) (update : doc)
  : store * result UpdateResult :=
  match find_one data query with
  | Raise e => (data, Raise e)
  | Ok None | Ok (Some []) => (data, Ok {| modified_count := 0 |})
  | Ok (Some found) =>
      match dict_get "_id" found with
      | None => (data, Raise KeyError)
      | Some doc_id =>
          match apply_operator "$push" (on_stored push_field doc_id)
                               data update with
          | (data, Raise e) => (data, Raise e)
          | (data, Ok _) =>
              match apply_operator "$pull" (on_stored pull_field doc_id)
                                   data update with
              | (data, Raise e) => (data, Raise e)
              | (data, Ok _) => (data, Ok {| modified_count := 1 |})
              end
          end
      end
  end.

(** ** [aggregate] *)

(** [for day in ...: days.add(day)] *)
Fixpoint add_days (days : list value) (items : list value)
  : result (list value) :=
  match items with
  | [] => Ok days
  | day :: rest => days' <- set_add day days ;; add_days days' rest
  end.

(** Lines 81-83 for one stored document. *)
Definition add_document_days (value : doc) (days : list Py.value)
  : result (list Py.value) :=
  match dict_get "schedule_details" value with
  | None => Ok days
  | Some schedule_details =>
      has_days <- py_contains (VStr "days") schedule_details ;;
      if has_days then
        field <- py_getitem schedule_details "days" ;;
        items <- py_iter field ;;
        add_days days items
      else Ok days
  end.

(** The loop of lines 80-83, from the set built so far. *)
Fixpoint collect_days (values : list doc) (days : list value)
  : result (list value) :=
  match values with
  | [] => Ok days
  | value :: rest =>
      days' <- add_document_days value days ;;
      collect_days rest days'
  end.

(** A pipeline is a list of stages, each a mapping. *)
Definition aggregate (data : store) (pipeline : list doc)
  : result (list doc) :=
  if Nat.eqb (List.length pipeline) 3
     && dict_mem "$unwind" (nth 0 pipeline [])
     && dict_mem "$group" (nth 1 pipeline [])
  then
    days <- collect_days (map snd data) [] ;;
    ordered <- py_sorted days ;;
    Ok (map (fun day => [("_id", day)]) ordered)
  else Ok [].

End InMemoryCollection.
Import InMemoryCollection.

(* ================================================================== *)
(** * [init_database] *)

(** The two module-level collections. *)
Record database : Type := {
  activities_data : store;
  teachers_data : store
}.

Section Seeding.
(** The seed records: [initial_activities] is a dictionary from activity
    name to details, [initial_teachers] a list of account records (their
    password hashes come from Argon2, outside this development). *)
Variable initial_activities : list (value * doc).
Variable initial_teachers : list doc.

(** Lines 101-102 *)
Fixpoint seed_activities (data : store) (items : list (value * doc))
  : store * result unit :=
  match items with
  | [] => (data, Ok tt)
  | (name, details) :: rest =>
      match insert_one data (with_id name details) with
      | (data', Ok _) => seed_activities data' rest
      | (data', Raise e) => (data', Raise e)
      end
  end.

(** Lines 106-107 *)
Fixpoint seed_teachers (data : store) (items : list doc)
  : store * result unit :=
  match items with
  | [] => (data, Ok tt)
  | teacher :: rest =>
      match dict_get "username" teacher with
      | None => (data, Raise KeyError)
      | Some username =>
          match insert_one data (with_id username teacher) with
          | (data', Ok _) => seed_teachers data' rest
          | (data', Raise e) => (data', Raise e)
          end
      end
  end.

(** [if coll.count_documents({}) == 0: <seed>] *)
Definition seed_if_empty (seed : store -> store * result unit)
           (data : store) : store * result unit :=
  match count_documents data (Some []) with
  | Raise e => (data, Raise e)
  | Ok n => if Nat.eqb n 0 then seed data else (data, Ok tt)
  end.

Definition init_database (db : database) : database * result unit :=
  match seed_if_empty (fun d => seed_activities d initial_activities)
                      (activities_data db) with
  | (acts, Raise e) =>
      ({| activities_data := acts; teachers_data := teachers_data db |},
       Raise e)
  | (acts, Ok _) =>
      let (teachers, r) :=
        seed_if_empty (fun d => seed_teachers d initial_teachers)
                      (teachers_data db) in
      ({| activities_data := acts; teachers_data := teachers |}, r)
  end.
End Seeding.

(** The seed activities, lines 110-254. *)
Definition initial_activities : list (value * doc) :=
  [(VStr "Chess Club",
    [("description", VStr "Learn strategies and compete in chess tournaments");
     ("schedule", VStr "Mondays and Fridays, 3:15 PM - 4:45 PM");
     ("schedule_details", VDict
       [("days", VList [VStr "Monday"; VStr "Friday"]);
        ("start_time", VStr "15:15");
        ("end_time", VStr "16:45")]);
     ("max_participants", VInt 12);
     ("participants", VList [VStr "michael@mergington.edu"; VStr "daniel@mergington.edu"])]);
   (VStr "Programming Class",
    [("description", VStr "Learn programming fundamentals and build software projects");
     ("schedule", VStr "Tuesdays and Thursdays, 7:00 AM - 8:00 AM");
     ("schedule_details", VDict
       [("days", VList [VStr "Tuesday"; VStr "Thursday"]);
        ("start_time", VStr "07:00");
        ("end_time", VStr "08:00")]);
     ("max_participants", VInt 20);
     ("participants", VList [VStr "emma@mergington.edu"; VStr "sophia@mergington.edu"])]);
   (VStr "Morning Fitness",
    [("description", VStr "Early morning physical training and exercises");
     ("schedule", VStr "Mondays, Wednesdays, Fridays, 6:30 AM - 7:45 AM");
     ("schedule_details", VDict
       [("days", VList [VStr "Monday"; VStr "Wednesday"; VStr "Friday"]);
        ("start_time", VStr "06:30");
        ("end_time", VStr "07:45")]);
     ("max_participants", VInt 30);
     ("participants", VList [VStr "john@mergington.edu"; VStr "olivia@mergington.edu"])]);
   (VStr "Soccer Team",
    [("description", VStr "Join the school soccer team and compete in matches");
     ("schedule", VStr "Tuesdays and Thursdays, 3:30 PM - 5:30 PM");
     ("schedule_details", VDict
       [("days", VList [VStr "Tuesday"; VStr "Thursday"]);
        ("start_time", VStr "15:30");
        ("end_time", VStr "17:30")]);
     ("max_participants", VInt 22);
     ("participants", VList [VStr "liam@mergington.edu"; VStr "noah@mergington.edu"])]);
   (VStr "Basketball Team",
    [("description", VStr "Practice and compete in basketball tournaments");
     ("schedule", VStr "Wednesdays and Fridays, 3:15 PM - 5:00 PM");
     ("schedule_details", VDict
       [("days", VList [VStr "Wednesday"; VStr "Friday"]);
        ("start_time", VStr "15:15");
        ("end_time", VStr "17:00")]);
     ("max_participants", VInt 15);
     ("participants", VList [VStr "ava@mergington.edu"; VStr "mia@mergington.edu"])]);
   (VStr "Art Club",
    [("description", VStr "Explore various art techniques and create masterpieces");
     ("schedule", VStr "Thursdays, 3:15 PM - 5:00 PM");
     ("schedule_details", VDict
       [("days", VList [VStr "Thursday"]);
        ("start_time", VStr "15:15");
        ("end_time", VStr "17:00")]);
     ("max_participants", VInt 15);
     ("participants", VList [VStr "amelia@mergington.edu"; VStr "harper@mergington.edu"])]);
   (VStr "Drama Club",
    [("description", VStr "Act, direct, and produce plays and performances");
     ("schedule", VStr "Mondays and Wednesdays, 3:30 PM - 5:30 PM");
     ("schedule_details", VDict
       [("days", VList [VStr "Monday"; VStr "Wednesday"]);
        ("start_time", VStr "15:30");
        ("end_time", VStr "17:30")]);
     ("max_participants", VInt 20);
     ("participants", VList [VStr "ella@mergington.edu"; VStr "scarlett@mergington.edu"])]);
   (VStr "Math Club",
    [("description", VStr "Solve challenging problems and prepare for math competitions");
     ("schedule", VStr "Tuesdays, 7:15 AM - 8:00 AM");
     ("schedule_details", VDict
       [("days", VList [VStr "Tuesday"]);
        ("start_time", VStr "07:15");
        ("end_time", VStr "08:00")]);
     ("max_participants", VInt 10);
     ("participants", VList [VStr "james@mergington.edu"; VStr "benjamin@mergington.edu"])]);
   (VStr "Debate Team",
    [("description", VStr "Develop public speaking and argumentation skills");
     ("schedule", VStr "Fridays, 3:30 PM - 5:30 PM");
     ("schedule_details", VDict
       [("days", VList [VStr "Friday"]);
        ("start_time", VStr "15:30");
        ("end_time", VStr "17:30")]);
     ("max_participants", VInt 12);
     ("participants", VList [VStr "charlotte@mergington.edu"; VStr "amelia@mergington.edu"])]);
   (VStr "Weekend Robotics Workshop",
    [("description", VStr "Build and program robots in our state-of-the-art workshop");
     ("schedule", VStr "Saturdays, 10:00 AM - 2:00 PM");
     ("schedule_details", VDict
       [("days", VList [VStr "Saturday"]);
        ("start_time", VStr "10:00");
        ("end_time", VStr "14:00")]);
     ("max_participants", VInt 15);
     ("participants", VList [VStr "ethan@mergington.edu"; VStr "oliver@mergington.edu"])]);
   (VStr "Science Olympiad",
    [("description", VStr "Weekend science competition preparation for regional and state events");
     ("schedule", VStr "Saturdays, 1:00 PM - 4:00 PM");
     ("schedule_details", VDict
       [("days", VList [VStr "Saturday"]);
        ("start_time", VStr "13:00");
        ("end_time", VStr "16:00")]);
     ("max_participants", VInt 18);
     ("participants", VList [VStr "isabella@mergington.edu"; VStr "lucas@mergington.edu"])]);
   (VStr "Sunday Chess Tournament",
    [("description", VStr "Weekly tournament for serious chess players with rankings");
     ("schedule", VStr "Sundays, 2:00 PM - 5:00 PM");
     ("schedule_details", VDict
       [("days", VList [VStr "Sunday"]);
        ("start_time", VStr "14:00");
        ("end_time", VStr "17:00")]);
     ("max_participants", VInt 16);
     ("participants", VList [VStr "william@mergington.edu"; VStr "jacob@mergington.edu"])]);
   (VStr "Study AI once a day",
    [("description", VStr "Daily AI learning sessions for aspiring AI-first entrepreneurs. Study machine learning, artificial intelligence concepts, and emerging technologies");
     ("schedule", VStr "Monday to Friday, 8:00 AM - 8:30 AM");
     ("schedule_details", VDict
       [("days", VList [VStr "Monday"; VStr "Tuesday"; VStr "Wednesday"; VStr "Thursday"; VStr "Friday"]);
        ("start_time", VStr "08:00");
        ("end_time", VStr "08:30")]);
     ("max_participants", VInt 25);
     ("participants", VList [VStr "barki@mergington.edu"])])].

(* ================================================================== *)
(** * Documents of the specification's test scenarios *)

Module Scenarios.

Definition chess : doc :=
  [("_id", VStr "Chess Club");
   ("schedule_details", VDict [("days", VList [VStr "Monday"; VStr "Friday"])]);
   ("participants", VList [VStr "a@x.edu"])].

Definition math : doc :=
  [("_id", VStr "Math Club");
   ("schedule_details", VDict [("days", VList [VStr "Tuesday"])])].

Definition drama : doc :=
  [("_id", VStr "Drama Club");
   ("schedule_details", VDict [("days", VList [VStr "Monday"])])].

Definition insert_all (docs : list doc) : store :=
  fold_left (fun data d => fst (insert_one data d)) docs [].

Definition by_id (name : string) : option doc := Some [("_id", VStr name)].

End Scenarios.
Import Scenarios.

(* ================================================================== *)
(** * Specification-side notions *)

(** A list of fields represents a Python dictionary when no key occurs
    twice. *)
Definition is_dict (d : doc) : Prop := NoDup (map fst d).

(** Document [R] equals document [D], whose id is [I]: the id field is
    present and equal to [I], and every other field is the same in both. *)
Definition same_document (R D : doc) (I : value) : Prop :=
  (exists k, dict_get "_id" R = Some k /\ py_eq k I = true) /\
  (forall f, f <> "_id" -> dict_get f R = dict_get f D).

(** [insert_one(D)] followed by [find_one({"_id": I})] gives back [D]. *)
Definition round_trip (data : store) (D : doc) (I : value) : Prop :=
  exists data' r R,
    insert_one data D = (data', Ok r) /\
    find_one data' (Some [("_id", I)]) = Ok (Some R) /\
    same_document R D I.

(** Resolution of a dotted path as the specification words it: descend the
    document through each path segment in order; the resolution fails when
    a segment is missing or the value reached is not a mapping. *)
Fixpoint resolve_path (segments : list string) (v : value) : option value :=
  match segments with
  | [] => Some v
  | segment :: rest =>
      match v with
      | VDict d =>
          match dict_get segment d with
          | Some inner => resolve_path rest inner
          | None => None
          end
      | _ => None
      end
  end.

Definition path_resolves (q_key : string) (fields : doc) : bool :=
  match resolve_path (split_dot q_key) (VDict fields) with
  | Some _ => true
  | None => false
  end.

(** [update_one] reports one modified document. *)
Definition reports_one_modified (data : store) (Q : option doc) (U : doc)
  : Prop :=
  exists data', update_one data Q U = (data', Ok {| modified_count := 1 |}).

(** The field [key] is absent from the document or holds a sequence. *)
Definition list_or_absent (key : string) (d : doc) : Prop :=
  match dict_get key d with
  | None | Some (VList _) => True
  | Some _ => False
  end.

(** The fields named by the operator [name] of an update, when the
    operator is absent or its argument is a mapping. *)
Definition targets (name : string) (update : doc) : option (list string) :=
  match dict_get name update with
  | None => Some []
  | Some (VDict pairs) => Some (map fst pairs)
  | Some _ => None
  end.

(** An update is well shaped for a stored document: ["$push"] and
    ["$pull"], when present, are mappings, and every field they name is
    absent from the document or holds a sequence there. *)
Definition well_shaped (update stored : doc) : Prop :=
  exists pushed pulled,
    targets "$push" update = Some pushed /\
    targets "$pull" update = Some pulled /\
    forall key, In key (pushed ++ pulled) -> list_or_absent key stored.

(** What an operator step needs to go through on a field that is absent or
    holds a sequence, and what it then keeps true of the other fields. *)
Definition shape_preserving
           (f : doc -> string -> value -> result doc) : Prop :=
  forall d key value,
    list_or_absent key d ->
    exists d', f d key value = Ok d' /\
               forall k, list_or_absent k d -> list_or_absent k d'.

(** The pipeline shape [aggregate] recognises: three stages, the first
    an unwind, the second a group. *)
Definition fixed_shape (pipeline : list doc) : Prop :=
  exists unwind group last,
    pipeline = [unwind; group; last] /\
    dict_mem "$unwind" unwind = true /\
    dict_mem "$group" group = true.

(** The nested [schedule_details.days] sequence of a document, when it has
    one. *)
Definition days_of (fields : doc) : option (list value) :=
  match resolve_path ["schedule_details"; "days"] (VDict fields) with
  | Some (VList items) => Some items
  | _ => None
  end.

Definition day_occurs (data : store) (day : string) : Prop :=
  exists key fields items,
    In (key, fields) data /\
    days_of fields = Some items /\
    In (VStr day) items.

Definition is_text (v : value) : Prop :=
  match v with
  | VStr _ => True
  | _ => False
  end.

(** The document's [schedule_details], when present, is a mapping, and its
    [days], when present, is a sequence of text values. *)
Definition text_days (fields : doc) : Prop :=
  match dict_get "schedule_details" fields with
  | None => True
  | Some (VDict details) =>
      match dict_get "days" details with
      | None => True
      | Some (VList items) => Forall is_text items
      | Some _ => False
      end
  | Some _ => False
  end.

(** Lexicographic order on text, by character code. *)
Definition string_lt (s t : string) : Prop := String.ltb s t = true.

(** The result is one single-field record per distinct day of the
    collection, in ascending lexicographic order, each day once. *)
Definition distinct_days_sorted (data : store) (r : result (list doc))
  : Prop :=
  exists days : list string,
    r = Ok (map (fun day => [("_id", VStr day)]) days) /\
    Sorted string_lt days /\
    NoDup days /\
    forall day, In day days <-> day_occurs data day.

(** The stores [insert_one] builds: ids are hashable and pairwise
    different, and no stored document keeps an ["_id"] field. *)
Fixpoint distinct_keys (data : store) : Prop :=
  match data with
  | [] => True
  | (k, _) :: rest =>
      (forall k' v', In (k', v') rest -> py_eq k k' = false) /\
      distinct_keys rest
  end.

Definition store_ok (data : store) : Prop :=
  (forall k v, In (k, v) data ->
               hashable k = true /\ ~ In "_id" (map fst v)) /\
  distinct_keys data.

(** ** Notions for the further properties *)

(** The stored document passes every clause of the query. *)
Definition matches (key : value) (fields : doc) (query : doc) : bool :=
  match match_query key fields true query with
  | Ok true => true
  | _ => false
  end.

(** The document has the field and its value equals the query value. *)
Definition field_equals (q_key : string) (q_value : value) (fields : doc)
  : bool :=
  match dict_get q_key fields with
  | Some v => py_eq v q_value
  | None => false
  end.

(** A seed record: a dictionary without an ["_id"] field of its own. *)
Definition seed_fields_ok (d : doc) : Prop :=
  NoDup (map fst d) /\ ~ In "_id" (map fst d).

(** [initial_activities] as a dictionary (hashable, pairwise different
    names) of seed records. *)
Definition activities_ok (items : list (value * doc)) : Prop :=
  distinct_keys items /\
  forall name details,
    In (name, details) items ->
    hashable name = true /\ seed_fields_ok details.

(** The entry a teacher record is stored as: under its [username]. *)
Definition teacher_entry (teacher : doc) : value * doc :=
  (match dict_get "username" teacher with
   | Some username => username
   | None => VNone
   end, teacher).

(** [initial_teachers]: seed records with hashable, pairwise different
    user names. *)
Definition teachers_ok (teachers : list doc) : Prop :=
  distinct_keys (map teacher_entry teachers) /\
  forall teacher,
    In teacher teachers ->
    seed_fields_ok teacher /\
    exists username,
      dict_get "username" teacher = Some username /\
      hashable username = true.

(** The database holding exactly the seed records. *)
Definition seeded (activities : list (value * doc)) (teachers : list doc)
  : database :=
  {| activities_data := activities;
     teachers_data := map teacher_entry teachers |}.

(** What seeding leaves in a collection: the seed records when it was
    empty, its own documents otherwise. *)
Definition seed_or_keep (seeds data : store) : store :=
  match data with
  | [] => seeds
  | _ :: _ => data
  end.

(** The path resolves in the document to a list that holds an item equal
    to one of the candidates. *)
Definition path_hits (q_key : string) (candidates : list value)
           (fields : doc) : bool :=
  match resolve_path (split_dot q_key) (VDict fields) with
  | Some (VList xs) =>
      existsb (fun c => existsb (fun x => py_eq x c) xs) candidates
  | _ => false
  end.

(** Where the path resolves in the document, it resolves to a list. *)
Definition path_to_list (q_key : string) (fields : doc) : Prop :=
  match resolve_path (split_dot q_key) (VDict fields) with
  | Some (VList _) | None => True
  | Some _ => False
  end.

(** The membership clause as first stated, for a path that resolves to
    [r]: the document passes the clause exactly when Python's [in] finds
    some candidate in [r]. *)
Definition membership_as_stated (key : value) (fields : doc)
           (q_key : string) (candidates : list value) (r : value) : Prop :=
  match_query key fields true [(q_key, VDict [("$in", VList candidates)])]
  = Ok true
  <->
  exists c, In c candidates /\ py_contains c r = Ok true.

(** The update [U] with the pairs of its ["$pull"] cut down to [pairs]. *)
Definition with_pull (U pairs : doc) : doc :=
  dict_set "$pull" (VDict pairs) U.

(** The update made of the one operator ["$push"] with [pairs]. *)
Definition push_only (pairs : doc) : doc := [("$push", VDict pairs)].

(** [update_one(Q, {"$pull": {key: value}})] returns, and the matched
    document then reads, under [key], the list [l] without the first of
    its items equal to [value]. *)
Definition first_occurrence_pulled (data : store) (Q : option doc)
           (key : string) (value : Py.value) (l : list Py.value) : Prop :=
  exists data' r l1 x l2,
    update_one data Q [("$pull", VDict [(key, value)])] = (data', Ok r) /\
    l = l1 ++ x :: l2 /\
    py_eq x value = true /\
    (forall y, In y l1 -> py_eq y value = false) /\
    fmap (option_map (dict_get key)) (find_one data' Q)
    = Ok (Some (Some (VList (l1 ++ l2)))).

(* ================================================================== *)
(** * Dictionaries and the backing store *)

Section DictFacts.
Variable A : Type.
Implicit Types (d : list (string * A)) (k f : string) (v : A).

Lemma dict_get_set_eq k v d : dict_get k (dict_set k v d) = Some v.
Proof.
  induction d as [|[k' v'] d IH]; simpl.
  - now rewrite String.eqb_refl.
  - destruct (String.eqb k k') eqn:E; simpl; rewrite E; auto.
Qed.

Lemma dict_get_set_neq k f v d :
  f <> k -> dict_get f (dict_set k v d) = dict_get f d.
Proof.
  intros Hne. induction d as [|[k' v'] d IH]; simpl.
  - apply String.eqb_neq in Hne. now rewrite Hne.
  - destruct (String.eqb k k') eqn:E; simpl.
    + apply String.eqb_eq in E. subst k'.
      apply String.eqb_neq in Hne. now rewrite Hne.
    + now rewrite IH.
Qed.

Lemma dict_get_del_eq k d : dict_get k (dict_del k d) = None.
Proof.
  induction d as [|[k' v'] d IH]; simpl; auto.
  destruct (String.eqb k k') eqn:E; simpl; auto. now rewrite E.
Qed.

Lemma dict_get_del_neq k f d :
  f <> k -> dict_get f (dict_del k d) = dict_get f d.
Proof.
  intros Hne. induction d as [|[k' v'] d IH]; simpl; auto.
  destruct (String.eqb k k') eqn:E; simpl.
  - apply String.eqb_eq in E. subst k'.
    apply String.eqb_neq in Hne. now rewrite Hne.
  - now rewrite IH.
Qed.

Lemma dict_get_absent k d : ~ In k (map fst d) -> dict_get k d = None.
Proof.
  induction d as [|[k' v'] d IH]; simpl; auto.
  intros Hn. destruct (String.eqb_spec k k') as [->|_].
  - exfalso. auto.
  - apply IH. auto.
Qed.

Lemma dict_del_keys k f d :
  In f (map fst (dict_del k d)) -> In f (map fst d).
Proof.
  induction d as [|[k' v'] d IH]; simpl; auto.
  destruct (String.eqb k k'); simpl; intuition.
Qed.

Lemma dict_del_nodup k d :
  NoDup (map fst d) -> NoDup (map fst (dict_del k d)).
Proof.
  induction d as [|[k' v'] d IH]; simpl; auto.
  intros Hnd. inversion Hnd as [|? ? Hnot Hrest]; subst.
  destruct (String.eqb k k'); simpl; auto.
  constructor; auto. intros Hin. apply Hnot. eapply dict_del_keys; eauto.
Qed.

(** A field of [{**base, **d}] comes from [d] when [d] has it, and from
    [base] otherwise. *)
Lemma dict_get_update f base d :
  NoDup (map fst d) ->
  dict_get f (dict_update base d) =
  match dict_get f d with
  | Some v => Some v
  | None => dict_get f base
  end.
Proof.
  unfold dict_update. revert base.
  induction d as [|[k v] d IH]; simpl; intros base Hnd; auto.
  inversion Hnd as [|? ? Hnot Hrest]; subst.
  rewrite IH by assumption.
  destruct (String.eqb_spec f k) as [->|Hne].
  - rewrite (dict_get_absent _ _ Hnot). apply dict_get_set_eq.
  - destruct (dict_get f d); auto. now apply dict_get_set_neq.
Qed.
End DictFacts.

Lemma hashable_eq_refl (v : value) : hashable v = true -> py_eq v v = true.
Proof.
  destruct v as [|b|n|s|l|d]; simpl; try discriminate; intros _; auto.
  - now destruct b.
  - apply Z.eqb_refl.
  - apply String.eqb_refl.
Qed.

(** With the single clause [{"_id": I}] a stored document matches exactly
    when its key equals [I]. *)
Lemma match_query_id key value I :
  match_query key value true [("_id", I)] = Ok (py_eq key I).
Proof.
  simpl. unfold clause_step. simpl. now destruct (py_eq key I).
Qed.

Lemma find_loop_id (data : store) (I : value) :
  find_loop data [("_id", I)] =
  Ok (map (fun kv => with_id (fst kv) (snd kv))
          (filter (fun kv => py_eq (fst kv) I) data)).
Proof.
  induction data as [|[k v] data IH].
  - reflexivity.
  - cbn [find_loop]. rewrite match_query_id. cbn [bind]. rewrite IH.
    cbn [bind filter fst snd]. now destruct (py_eq k I).
Qed.

(** After [self.data[I] = v], the first key equal to [I] carries [v]. *)
Lemma filter_store_set (I : value) (v : doc) (data : store) :
  py_eq I I = true ->
  exists k rest,
    filter (fun kv => py_eq (fst kv) I) (store_set I v data) = (k, v) :: rest
    /\ py_eq k I = true.
Proof.
  intros Hrefl. induction data as [|[k' v'] data IH]; simpl.
  - rewrite Hrefl. eauto.
  - destruct (py_eq k' I) eqn:E; simpl; rewrite E; eauto.
Qed.

Lemma find_loop_empty (data : store) :
  find_loop data [] = Ok (map (fun kv => with_id (fst kv) (snd kv)) data).
Proof.
  induction data as [|[k v] data IH]; simpl; auto. now rewrite IH.
Qed.

(* ================================================================== *)
(** * Properties of the collection *)

(** C1, as amended: for every document [D] whose ["_id"] field holds a
    hashable value [I] (anything but a list or a mapping), [insert_one(D)]
    followed by [find_one({"_id": I})] returns a document equal to [D]:
    the id field is present and equal to [I] and every other field of [D]
    is preserved with its value. *)
Theorem insert_then_find_round_trip (data : store) (D : doc) (I : value) :
  is_dict D ->
  dict_get "_id" D = Some I ->
  hashable I = true ->
  round_trip data D I.
Proof.
  intros Hd Hid Hh. unfold round_trip, insert_one. rewrite Hid, Hh.
  destruct (filter_store_set I (dict_del "_id" D) data
              (hashable_eq_refl I Hh)) as (k & rest & Hf & Hk).
  exists (store_set I (dict_del "_id" D) data), {| inserted_id := I |},
         (with_id k (dict_del "_id" D)).
  split; [reflexivity|]. split.
  - unfold find_one, find. rewrite find_loop_id, Hf. reflexivity.
  - unfold same_document, with_id. split.
    + exists k. split; auto.
      rewrite dict_get_update by (apply dict_del_nodup; exact Hd).
      rewrite dict_get_del_eq. reflexivity.
    + intros f Hf'.
      rewrite dict_get_update by (apply dict_del_nodup; exact Hd).
      rewrite dict_get_del_neq by assumption.
      destruct (dict_get f D) eqn:E; auto.
      simpl. apply String.eqb_neq in Hf'. now rewrite Hf'.
Qed.

Lemma insert_then_find_round_trip_witness :
  round_trip [(VInt 1, [("name", VStr "old")])]
             [("name", VStr "Chess Club"); ("_id", VBool true)]
             (VBool true).
Proof.
  apply insert_then_find_round_trip.
  - repeat constructor; simpl; intuition discriminate.
  - reflexivity.
  - reflexivity.
Defined.

(** C1 as stated fails: a document whose ["_id"] is a list cannot be
    inserted, [self.data[doc_id] = doc] raises [TypeError]. *)
Lemma round_trip_unhashable_id :
  let I := VList [VStr "a"] in
  let D := [("_id", I); ("name", VStr "x")] in
  is_dict D /\ dict_get "_id" D = Some I /\ ~ round_trip [] D I.
Proof.
  cbv zeta. split; [|split].
  - repeat constructor; simpl; intuition discriminate.
  - reflexivity.
  - intros (data' & r & R & Hins & _). discriminate Hins.
Qed.

(** C2: for every collection state and every query [Q], absent and empty
    included, [count_documents(Q)] is the length of [find(Q)] (and raises
    exactly when [find(Q)] does). *)
Theorem count_documents_is_length_of_find (data : store) (Q : option doc) :
  count_documents data Q = fmap (@List.length doc) (find data Q).
Proof.
  unfold count_documents.
  destruct Q as [[|c q]|]; try reflexivity.
  simpl. rewrite find_loop_empty. reflexivity.
Qed.

(** C5: for every document [D] without the ["_id"] field, [insert_one(D)]
    raises ([KeyError]) and the backing store is left as it was. *)
Theorem insert_without_id_raises (data : store) (D : doc) :
  dict_get "_id" D = None ->
  insert_one data D = (data, Raise KeyError).
Proof.
  intros H. unfold insert_one. now rewrite H.
Qed.

Lemma insert_without_id_raises_witness :
  insert_one [(VStr "Chess Club", [("max_participants", VInt 12)])]
             [("name", VStr "Art Club")]
  = ([(VStr "Chess Club", [("max_participants", VInt 12)])], Raise KeyError).
Proof.
  apply insert_without_id_raises. reflexivity.
Defined.

(** ** Dotted-path clauses *)

Lemma id_key_has_no_dot q_key :
  contains_dot q_key = true -> String.eqb q_key "_id" = false.
Proof.
  intros H. destruct (String.eqb_spec q_key "_id") as [->|]; auto.
Qed.

(** The loop of lines 31-36 computes [resolve_path]; the flag survives
    exactly when the path resolves. *)
Lemma descend_resolve segments v matched :
  match resolve_path segments v with
  | Some r => descend segments v matched = (r, matched)
  | None => snd (descend segments v matched) = false
  end.
Proof.
  revert v. induction segments as [|seg rest IH]; intros v; simpl; auto.
  destruct v; simpl; auto.
  destruct (dict_get seg d); simpl; auto. apply IH.
Qed.

Lemma descend_false segments v :
  snd (descend segments v false) = false.
Proof.
  pose proof (descend_resolve segments v false) as H.
  destruct (resolve_path segments v); auto. now rewrite H.
Qed.

(** Once the flag is down no later clause raises it, or raises at all. *)
Lemma match_query_false key value query :
  match_query key value false query = Ok false.
Proof.
  induction query as [|[q_key q_value] rest IH]; simpl; auto.
  unfold clause_step.
  destruct (String.eqb q_key "_id").
  - destruct (negb (py_eq key q_value)); simpl; auto.
  - destruct (contains_dot q_key).
    + pose proof (descend_false (split_dot q_key) (VDict value)) as Hd.
      destruct (descend (split_dot q_key) (VDict value) false) as [nv m].
      simpl in Hd. subst m. simpl. exact IH.
    + match goal with |- context [if ?c then _ else _] => destruct c end;
        simpl; auto.
Qed.

Lemma py_any_in_list (candidates xs : list value) :
  py_any_in candidates (VList xs) =
  Ok (existsb (fun c => existsb (fun x => py_eq x c) xs) candidates).
Proof.
  induction candidates as [|c rest IH]; simpl; auto.
  destruct (existsb (fun x => py_eq x c) xs); simpl; auto.
Qed.

(** C9: when the path of a dotted clause resolves and the query value is not
    a mapping containing ["$in"], the clause leaves the match flag as it
    found it: the resolved value is never compared with the query value.
    Hence a query made of one such clause returns every document in which
    the path resolves. *)
Theorem dotted_clause_without_marker_is_vacuous
        (q_key : string) (q_value : value) :
  contains_dot q_key = true ->
  in_marker q_value = None ->
  (forall key fields r matched,
     resolve_path (split_dot q_key) (VDict fields) = Some r ->
     clause_step key fields matched q_key q_value = Ok (Continue matched))
  /\
  (forall data,
     find data (Some [(q_key, q_value)]) =
     Ok (map (fun kv => with_id (fst kv) (snd kv))
             (filter (fun kv => path_resolves q_key (snd kv)) data))).
Proof.
  intros Hdot Hmark. pose proof (id_key_has_no_dot _ Hdot) as Hid.
  assert (Hstep : forall key fields matched,
             clause_step key fields matched q_key q_value =
             Ok (Continue
                   (snd (descend (split_dot q_key) (VDict fields) matched)))).
  { intros key fields matched. unfold clause_step. rewrite Hid, Hdot, Hmark.
    destruct (descend (split_dot q_key) (VDict fields) matched) as [nv m].
    now destruct m. }
  split.
  - intros key fields r matched Hres. rewrite Hstep.
    pose proof (descend_resolve (split_dot q_key) (VDict fields) matched) as Hd.
    rewrite Hres in Hd. now rewrite Hd.
  - intros data. cbn [find].
    induction data as [|[k v] data IH]; auto.
    cbn [find_loop match_query]. rewrite Hstep. cbn [bind]. rewrite IH.
    cbn [bind filter fst snd]. unfold path_resolves.
    pose proof (descend_resolve (split_dot q_key) (VDict v) true) as Hd.
    destruct (resolve_path (split_dot q_key) (VDict v)).
    + now rewrite Hd.
    + now rewrite Hd.
Qed.

Lemma dotted_clause_without_marker_is_vacuous_witness :
  find [(VStr "Chess Club",
         [("schedule_details", VDict [("days", VList [VStr "Monday"])])]);
        (VStr "Art Club", [("schedule", VStr "Thursdays")])]
       (Some [("schedule_details.days", VStr "never compared")])
  = Ok [[("_id", VStr "Chess Club");
         ("schedule_details", VDict [("days", VList [VStr "Monday"])])]].
Proof.
  apply (proj2 (dotted_clause_without_marker_is_vacuous
                  "schedule_details.days" (VStr "never compared")
                  eq_refl eq_refl)).
Defined.

(** ** Stores built by [insert_one] *)

Lemma dict_del_not_in (k : string) (d : doc) : ~ In k (map fst (dict_del k d)).
Proof.
  induction d as [|[k' v'] d IH]; simpl; auto.
  destruct (String.eqb_spec k k') as [->|Hne]; simpl; auto.
  intros [Heq|Hin]; auto.
Qed.

Lemma dict_get_update_absent (f : string) (base d : doc) :
  ~ In f (map fst d) -> dict_get f (dict_update base d) = dict_get f base.
Proof.
  unfold dict_update. revert base.
  induction d as [|[k v] d IH]; simpl; intros base Hnot; auto.
  rewrite IH by tauto. apply dict_get_set_neq. intros ->. tauto.
Qed.

Lemma store_set_keys (k : value) (v : doc) (data : store) :
  forall k' v', In (k', v') (store_set k v data) ->
    (k' = k /\ v' = v /\ forall k0 v0, In (k0, v0) data -> py_eq k0 k = false)
    \/ (exists old, In (k', old) data /\ v' = v /\ py_eq k' k = true)
    \/ In (k', v') data.
Proof.
  induction data as [|[k0 v0] data IH]; simpl; intros k' v' Hin.
  - destruct Hin as [[= <- <-]|[]]. left. repeat split; auto.
    intros ? ? [].
  - destruct (py_eq k0 k) eqn:E.
    + destruct Hin as [[= <- <-]|Hin]; [|tauto].
      right. left. exists v0. auto.
    + destruct Hin as [[= <- <-]|Hin]; [tauto|].
      destruct (IH _ _ Hin) as [(-> & -> & Hall)|[(old & Ho & -> & He)|Hr]].
      * left. repeat split; auto.
        intros k1 v1 [[= <- <-]|H1]; eauto.
      * right. left. exists old. auto.
      * tauto.
Qed.

Lemma store_set_distinct (k : value) (v : doc) (data : store) :
  distinct_keys data -> distinct_keys (store_set k v data).
Proof.
  induction data as [|[k0 v0] data IH]; simpl; intros Hd.
  - split; [intros ? ? []|exact Logic.I].
  - destruct Hd as [Hhead Hrest]. destruct (py_eq k0 k) eqn:E; simpl.
    + auto.
    + split; auto. intros k' v' Hin.
      destruct (store_set_keys _ _ _ _ _ Hin)
        as [(-> & _)|[(old & Ho & _)|Hr]]; eauto.
Qed.

(** [insert_one] keeps the store in that form. *)
Lemma insert_one_store_ok (data data' : store) (D : doc) (r : InsertResult) :
  store_ok data ->
  insert_one data D = (data', Ok r) ->
  store_ok data'.
Proof.
  intros [Hkeys Hdist]. unfold insert_one.
  destruct (dict_get "_id" D) as [doc_id|]; [|discriminate].
  destruct (hashable doc_id) eqn:Hh; [|discriminate].
  intros [= <- _]. split.
  - intros k v Hin.
    destruct (store_set_keys _ _ _ _ _ Hin)
      as [(-> & -> & _)|[(old & Ho & -> & _)|Hr]].
    + split; auto. apply dict_del_not_in.
    + split; [apply (Hkeys _ _ Ho)|apply dict_del_not_in].
    + apply (Hkeys _ _ Hr).
  - now apply store_set_distinct.
Qed.

Lemma store_lookup_member (k : value) (v : doc) (data : store) :
  distinct_keys data -> hashable k = true -> In (k, v) data ->
  store_lookup k data = Some v.
Proof.
  intros Hd Hh. induction data as [|[k0 v0] data IH]; simpl; [intros []|].
  destruct Hd as [Hhead Hrest]. intros [[= -> ->]|Hin].
  - now rewrite hashable_eq_refl.
  - rewrite (Hhead _ _ Hin). auto.
Qed.

Lemma find_loop_members (q : doc) (data : store) (found : list doc) :
  find_loop data q = Ok found ->
  forall d, In d found -> exists k v, In (k, v) data /\ d = with_id k v.
Proof.
  revert found. induction data as [|[k v] data IH]; simpl; intros found.
  - intros [= <-] d [].
  - destruct (match_query k v true q) as [m|]; [|discriminate]. cbn [bind].
    destruct (find_loop data q) as [rest|]; [|discriminate]. cbn [bind].
    intros [= <-] d Hd.
    assert (Hrest : In d rest -> exists k0 v0,
                      (((k, v) = (k0, v0)) \/ In (k0, v0) data)
                      /\ d = with_id k0 v0).
    { intros H. destruct (IH rest eq_refl d H) as (k0 & v0 & H0 & ->).
      eauto. }
    destruct m; auto. destruct Hd as [<-|Hd]; eauto.
Qed.

(** On such a store the document [find_one] returns carries the key it is
    stored under, and that key leads back to its stored fields. *)
Lemma find_one_designates (data : store) (Q : option doc) (found : doc) :
  store_ok data ->
  find_one data Q = Ok (Some found) ->
  exists k v,
    In (k, v) data /\ found = with_id k v /\
    dict_get "_id" found = Some k /\
    store_get k data = Ok v.
Proof.
  intros [Hkeys Hdist] Hfind. unfold find_one in Hfind.
  destruct (find data Q) as [[|first rest]|] eqn:E; try discriminate.
  cbn [bind] in Hfind. injection Hfind as ->.
  assert (Hmem : exists k v, In (k, v) data /\ found = with_id k v).
  { destruct Q as [q|]; cbn [find] in E.
    - eapply find_loop_members; [exact E|now left].
    - injection E as E.
      assert (Hin : In found (map (fun kv => with_id (fst kv) (snd kv)) data))
        by (rewrite E; now left).
      apply in_map_iff in Hin. destruct Hin as ([k v] & <- & Hin). eauto. }
  destruct Hmem as (k & v & Hin & ->).
  destruct (Hkeys _ _ Hin) as [Hh Hno].
  exists k, v. repeat split; auto.
  - unfold with_id. rewrite dict_get_update_absent by assumption. reflexivity.
  - unfold store_get. rewrite Hh.
    now rewrite (store_lookup_member _ _ _ Hdist Hh Hin).
Qed.

(** ** [update_one] *)

Lemma store_set_same (k : value) (d : doc) (data : store) :
  store_lookup k data = Some d -> store_set k d data = data.
Proof.
  induction data as [|[k' v'] data IH]; simpl; [discriminate|].
  destruct (py_eq k' k).
  - now intros [= ->].
  - intros H. now rewrite IH.
Qed.

Lemma store_lookup_set (k : value) (d d' : doc) (data : store) :
  store_lookup k data = Some d ->
  store_lookup k (store_set k d' data) = Some d'.
Proof.
  induction data as [|[k' v'] data IH]; simpl; [discriminate|].
  destruct (py_eq k' k) eqn:E; simpl; rewrite E; auto.
Qed.

Lemma store_get_inv (k : value) (d : doc) (data : store) :
  store_get k data = Ok d -> hashable k = true /\ store_lookup k data = Some d.
Proof.
  unfold store_get. destruct (hashable k); [|discriminate].
  destruct (store_lookup k data); [|discriminate]. now intros [= ->].
Qed.

Lemma store_get_set (k : value) (d d' : doc) (data : store) :
  store_get k data = Ok d -> store_get k (store_set k d' data) = Ok d'.
Proof.
  intros H. apply store_get_inv in H. destruct H as [Hh Hl].
  unfold store_get. now rewrite Hh, (store_lookup_set _ _ d' _ Hl).
Qed.

(** [l.remove(value)] on a list that holds [value]: the items before the
    first occurrence and the items after it remain. *)
Lemma list_remove_first (value : Py.value) (l : list Py.value) :
  existsb (fun x => py_eq x value) l = true ->
  exists l1 x l2,
    l = l1 ++ x :: l2 /\
    py_eq x value = true /\
    (forall y, In y l1 -> py_eq y value = false) /\
    list_remove value l = Ok (l1 ++ l2).
Proof.
  induction l as [|a l IH]; simpl; [discriminate|].
  destruct (py_eq a value) eqn:E; simpl.
  - intros _. exists [], a, l. simpl. intuition.
  - intros H. destruct (IH H) as (l1 & x & l2 & -> & Hx & Hbefore & Hrem).
    exists (a :: l1), x, l2. simpl. rewrite Hrem. simpl.
    repeat split; auto. intros y [<-|Hy]; auto.
Qed.

(** C6: when [Q] matches no document, [update_one(Q, U)] reports zero
    modified documents and the store is exactly what it was. *)
Theorem update_without_match (data : store) (Q : option doc) (U : doc) :
  find data Q = Ok [] ->
  update_one data Q U = (data, Ok {| modified_count := 0 |}).
Proof.
  intros H. unfold update_one, find_one. now rewrite H.
Qed.

Lemma update_without_match_witness :
  update_one [(VStr "Chess Club", [("participants", VList [VStr "a@x.edu"])])]
             (Some [("_id", VStr "nonexistent")])
             [("$push", VDict [("participants", VStr "b@x.edu")])]
  = ([(VStr "Chess Club", [("participants", VList [VStr "a@x.edu"])])],
     Ok {| modified_count := 0 |}).
Proof.
  apply update_without_match. reflexivity.
Defined.

Lemma list_or_absent_set (k key : string) (l : list value) (d : doc) :
  list_or_absent k d -> list_or_absent k (dict_set key (VList l) d).
Proof.
  unfold list_or_absent. destruct (String.eqb_spec k key) as [->|Hne].
  - now rewrite dict_get_set_eq.
  - now rewrite dict_get_set_neq.
Qed.

Lemma push_field_shape : shape_preserving push_field.
Proof.
  intros d key value H. unfold push_field, dict_mem.
  unfold list_or_absent in H.
  destruct (dict_get key d) as [[| | | |l|]|]; try contradiction.
  - eexists. split; [reflexivity|]. intros k. apply list_or_absent_set.
  - eexists. split; [reflexivity|]. intros k. apply list_or_absent_set.
Qed.

Lemma pull_field_shape : shape_preserving pull_field.
Proof.
  intros d key value H. unfold pull_field.
  unfold list_or_absent in H.
  destruct (dict_get key d) as [[| | | |l|]|]; try contradiction.
  - cbn [py_contains bind].
    destruct (existsb (fun x => py_eq x value) l) eqn:E.
    + destruct (list_remove_first value l E) as (l1 & x & l2 & _ & _ & _ & Hr).
      rewrite Hr. cbn [bind]. eexists. split; [reflexivity|].
      intros k. apply list_or_absent_set.
    + eauto.
  - eauto.
Qed.

(** A loop of shape-preserving steps over well-shaped pairs runs to its
    end. *)
Lemma run_pairs_shape (f : doc -> string -> value -> result doc)
      (doc_id : value) (keys : list string) :
  shape_preserving f ->
  forall pairs data d,
    store_get doc_id data = Ok d ->
    (forall key, In key keys -> list_or_absent key d) ->
    incl (map fst pairs) keys ->
    exists data' d',
      run_pairs (on_stored f doc_id) data pairs = (data', Ok tt) /\
      store_get doc_id data' = Ok d' /\
      (forall key, In key keys -> list_or_absent key d').
Proof.
  intros Hf. induction pairs as [|[key value] pairs IH];
    intros data d Hget Hshape Hincl.
  - exists data, d. auto.
  - cbn [run_pairs]. unfold on_stored at 1. rewrite Hget. cbn [bind].
    destruct (Hf d key value) as (d1 & Hstep & Hkeep).
    { apply Hshape, Hincl. now left. }
    rewrite Hstep. cbn [bind].
    apply (IH (store_set doc_id d1 data) d1).
    + eapply store_get_set; eauto.
    + intros k Hk. apply Hkeep, Hshape, Hk.
    + intros k Hk. apply Hincl. now right.
Qed.

Lemma targets_inv (name : string) (update : doc) (keys : list string) :
  targets name update = Some keys ->
  (dict_get name update = None /\ keys = []) \/
  (exists pairs, dict_get name update = Some (VDict pairs) /\
                 keys = map fst pairs).
Proof.
  unfold targets.
  destruct (dict_get name update) as [[| | | | |pairs]|]; try discriminate.
  - intros [= <-]. right. eauto.
  - intros [= <-]. now left.
Qed.

Lemma apply_operator_shape (name : string)
      (f : doc -> string -> value -> result doc)
      (doc_id : value) (all keys : list string) (update : doc) :
  shape_preserving f ->
  targets name update = Some keys ->
  incl keys all ->
  forall data d,
    store_get doc_id data = Ok d ->
    (forall key, In key all -> list_or_absent key d) ->
    exists data' d',
      apply_operator name (on_stored f doc_id) data update = (data', Ok tt) /\
      store_get doc_id data' = Ok d' /\
      (forall key, In key all -> list_or_absent key d').
Proof.
  intros Hf Ht Hincl data d Hget Hshape. unfold apply_operator.
  destruct (targets_inv _ _ _ Ht) as [[-> _]|(pairs & -> & ->)].
  - exists data, d. auto.
  - eapply run_pairs_shape; eauto.
Qed.

(** C10, as amended: when [Q] matches a document and the update is well
    shaped for the stored document the match designates
    ([self.data[doc["_id"]]], which exists on every store built by
    [insert_one], see [find_one_designates]), [update_one(Q, U)] reports one
    modified document, whether or not an operator is present or changes a
    field. *)
Theorem update_with_match_reports_one
        (data : store) (Q : option doc) (U found stored : doc)
        (doc_id : value) :
  find_one data Q = Ok (Some found) ->
  dict_get "_id" found = Some doc_id ->
  store_get doc_id data = Ok stored ->
  well_shaped U stored ->
  reports_one_modified data Q U.
Proof.
  intros Hfind Hid Hget (pushed & pulled & Hpush & Hpull & Hshape).
  unfold reports_one_modified, update_one. rewrite Hfind.
  destruct found as [|entry found]; [discriminate Hid|].
  rewrite Hid.
  destruct (apply_operator_shape "$push" push_field doc_id
              (pushed ++ pulled) pushed U push_field_shape Hpush
              (incl_appl pulled (incl_refl pushed)) data stored Hget Hshape)
    as (data1 & d1 & -> & Hget1 & Hshape1).
  destruct (apply_operator_shape "$pull" pull_field doc_id
              (pushed ++ pulled) pulled U pull_field_shape Hpull
              (incl_appr pushed (incl_refl pulled)) data1 d1 Hget1 Hshape1)
    as (data2 & d2 & -> & _ & _).
  eauto.
Qed.

Lemma update_with_match_reports_one_witness :
  reports_one_modified
    [(VStr "Chess Club", [("participants", VList [VStr "a@x.edu"])])]
    (Some [("_id", VStr "Chess Club")])
    [("$pull", VDict [("participants", VStr "absent@x.edu")])].
Proof.
  apply (update_with_match_reports_one _ _ _
           [("_id", VStr "Chess Club");
            ("participants", VList [VStr "a@x.edu"])]
           [("participants", VList [VStr "a@x.edu"])]
           (VStr "Chess Club")); try reflexivity.
  exists [], ["participants"]. repeat split.
  intros key [<-|[]]. exact I.
Defined.

(** C10 as stated fails: ["$push"] on a field that holds text raises
    [AttributeError], so no count is returned although [Q] matches. *)
Lemma update_with_match_may_raise :
  let data := [(VStr "Chess Club", [("schedule", VStr "Mondays")])] in
  let Q := Some [("_id", VStr "Chess Club")] in
  let U := [("$push", VDict [("schedule", VStr "Fridays")])] in
  (exists found, find_one data Q = Ok (Some found)) /\
  update_one data Q U = (data, Raise AttributeError) /\
  ~ reports_one_modified data Q U.
Proof.
  cbv zeta. split; [|split].
  - eexists. reflexivity.
  - reflexivity.
  - intros (data' & H). discriminate H.
Qed.

(** ** [init_database] *)

Lemma count_all (data : store) :
  count_documents data (Some []) = Ok (List.length data).
Proof.
  unfold count_documents. cbn [query_or_empty find].
  rewrite find_loop_empty. cbn [fmap]. now rewrite length_map.
Qed.

(** The guard [count_documents({}) == 0] keeps a populated collection out
    of the seeding loop. *)
Lemma seed_if_empty_populated
      (seed : store -> store * result unit) (data : store) :
  data <> [] -> seed_if_empty seed data = (data, Ok tt).
Proof.
  intros Hne. unfold seed_if_empty. rewrite count_all.
  destruct data; [contradiction|reflexivity].
Qed.

(** C8: on a collection that already holds a document, seeding is a no-op,
    whatever the seed records: after one call, and after a second one, the
    collection has the contents (and so the count) it had before, and no
    seed record is merged into it.  When both collections are populated
    the call changes nothing and returns normally. *)
Theorem seeding_skips_populated_collections
        (initial_activities : list (value * doc))
        (initial_teachers : list doc) (db : database) :
  let once := fst (init_database initial_activities initial_teachers db) in
  let twice := fst (init_database initial_activities initial_teachers once) in
  (activities_data db <> [] ->
     activities_data once = activities_data db /\
     activities_data twice = activities_data once /\
     count_documents (activities_data twice) None =
     count_documents (activities_data once) None)
  /\
  (teachers_data db <> [] ->
     teachers_data once = teachers_data db /\
     teachers_data twice = teachers_data once /\
     count_documents (teachers_data twice) None =
     count_documents (teachers_data once) None)
  /\
  (activities_data db <> [] -> teachers_data db <> [] ->
     init_database initial_activities initial_teachers db = (db, Ok tt)).
Proof.
  assert (Hacts : forall d, activities_data d <> [] ->
            activities_data
              (fst (init_database initial_activities initial_teachers d))
            = activities_data d).
  { intros d Hne. unfold init_database.
    rewrite (seed_if_empty_populated _ _ Hne).
    destruct (seed_if_empty _ (teachers_data d)). reflexivity. }
  assert (Hteach : forall d, teachers_data d <> [] ->
            teachers_data
              (fst (init_database initial_activities initial_teachers d))
            = teachers_data d).
  { intros d Hne. unfold init_database.
    destruct (seed_if_empty _ (activities_data d)) as [acts [u|e]].
    - now rewrite (seed_if_empty_populated _ _ Hne).
    - reflexivity. }
  cbv zeta. split; [|split].
  - intros Hne. pose proof (Hacts db Hne) as H1.
    assert (H2 : activities_data
                   (fst (init_database initial_activities initial_teachers
                           (fst (init_database initial_activities
                                   initial_teachers db))))
                 = activities_data
                     (fst (init_database initial_activities
                             initial_teachers db))).
    { apply Hacts. now rewrite H1. }
    repeat split; auto. now rewrite H2.
  - intros Hne. pose proof (Hteach db Hne) as H1.
    assert (H2 : teachers_data
                   (fst (init_database initial_activities initial_teachers
                           (fst (init_database initial_activities
                                   initial_teachers db))))
                 = teachers_data
                     (fst (init_database initial_activities
                             initial_teachers db))).
    { apply Hteach. now rewrite H1. }
    repeat split; auto. now rewrite H2.
  - intros Ha Ht. unfold init_database.
    rewrite (seed_if_empty_populated _ _ Ha).
    rewrite (seed_if_empty_populated _ _ Ht). now destruct db.
Qed.

Lemma seeding_skips_populated_collections_witness :
  init_database
    [(VStr "Chess Club", [("max_participants", VInt 12)])]
    [[("username", VStr "mchen"); ("role", VStr "teacher")]]
    {| activities_data := [(VStr "Art Club", [])];
       teachers_data := [(VStr "principal", [("role", VStr "admin")])] |}
  = ({| activities_data := [(VStr "Art Club", [])];
        teachers_data := [(VStr "principal", [("role", VStr "admin")])] |},
     Ok tt).
Proof.
  apply (proj2 (proj2 (seeding_skips_populated_collections _ _ _)));
    discriminate.
Defined.

(** ** [aggregate] *)

Lemma py_eq_text (y : value) (s : string) :
  py_eq y (VStr s) = true <-> y = VStr s.
Proof.
  destruct y; simpl; split; try discriminate.
  - intros H. apply String.eqb_eq in H. now subst.
  - intros [= ->]. apply String.eqb_refl.
Qed.

Lemma existsb_text (s : string) (acc : list value) :
  existsb (fun y => py_eq y (VStr s)) acc = true <-> In (VStr s) acc.
Proof.
  rewrite existsb_exists. split.
  - intros (y & Hy & He). apply py_eq_text in He. now subst.
  - intros H. exists (VStr s). split; auto. now apply py_eq_text.
Qed.

Lemma text_inv (v : value) : is_text v -> exists s, v = VStr s.
Proof. destruct v; simpl; try contradiction. eauto. Qed.

Lemma all_text_inv (l : list value) :
  Forall is_text l -> exists ss, l = map VStr ss.
Proof.
  induction 1 as [|v l Hv _ (ss & ->)].
  - now exists [].
  - destruct (text_inv v Hv) as (s & ->). now exists (s :: ss).
Qed.

(** The set of days keeps one copy of each text value added to it. *)
Lemma add_days_text (items : list value) :
  Forall is_text items ->
  forall acc, NoDup acc -> Forall is_text acc ->
  exists acc',
    add_days acc items = Ok acc' /\
    NoDup acc' /\ Forall is_text acc' /\
    forall v, In v acc' <-> In v acc \/ In v items.
Proof.
  induction 1 as [|day items Hday _ IH]; intros acc Hnd Htext.
  - exists acc. simpl. intuition.
  - destruct (text_inv day Hday) as (s & ->).
    cbn [add_days]. unfold set_add. cbn [hashable bind].
    destruct (existsb (fun y => py_eq y (VStr s)) acc) eqn:E.
    + apply existsb_text in E.
      destruct (IH acc Hnd Htext) as (acc' & -> & Hnd' & Htext' & Hin).
      exists acc'. repeat split; auto.
      * intros Hv. apply Hin in Hv. simpl. tauto.
      * intros [Hv|[<-|Hv]]; apply Hin; auto.
    + assert (Hnot : ~ In (VStr s) acc).
      { intros Hin. apply existsb_text in Hin. congruence. }
      destruct (IH (acc ++ [VStr s])) as (acc' & -> & Hnd' & Htext' & Hin).
      { apply (Permutation_NoDup (Permutation_cons_append acc (VStr s))).
        now constructor. }
      { apply Forall_app. split; auto. }
      exists acc'. repeat split; auto.
      * intros Hv. apply Hin in Hv. rewrite in_app_iff in Hv. simpl in *.
        tauto.
      * intros Hv. apply Hin. rewrite in_app_iff. simpl in *. tauto.
Qed.

(** The contribution of a well-shaped document is its [days_of]. *)
Lemma add_document_days_text (fields : doc) (acc : list value) :
  text_days fields ->
  exists items,
    add_document_days fields acc = add_days acc items /\
    Forall is_text items /\
    forall v, In v items <->
              exists its, days_of fields = Some its /\ In v its.
Proof.
  unfold text_days, add_document_days, days_of. cbn [resolve_path].
  destruct (dict_get "schedule_details" fields) as [[| | | | |details]|];
    try contradiction.
  - cbn [py_contains hashable bind py_getitem]. unfold dict_mem.
    destruct (dict_get "days" details) as [[| | | |items|]|];
      try contradiction.
    + intros Htext. exists items. repeat split; auto.
      * intros Hv. eauto.
      * intros (its & [= <-] & Hv). exact Hv.
    + intros _. exists []. repeat split; auto.
      * intros [].
      * intros (its & Hno & _). discriminate Hno.
  - intros _. exists []. repeat split; auto.
    + intros [].
    + intros (its & Hno & _). discriminate Hno.
Qed.

Lemma collect_days_text (values : list doc) :
  (forall fields, In fields values -> text_days fields) ->
  forall acc, NoDup acc -> Forall is_text acc ->
  exists acc',
    collect_days values acc = Ok acc' /\
    NoDup acc' /\ Forall is_text acc' /\
    forall v, In v acc' <->
              In v acc \/
              exists fields its,
                In fields values /\ days_of fields = Some its /\ In v its.
Proof.
  induction values as [|fields values IH]; intros Hall acc Hnd Htext.
  - exists acc. simpl. repeat split; auto.
    intros [Hv|(f & its & [] & _)]. exact Hv.
  - cbn [collect_days].
    destruct (add_document_days_text fields acc (Hall fields (or_introl eq_refl)))
      as (items & -> & Hitems & Hmem).
    destruct (add_days_text items Hitems acc Hnd Htext)
      as (acc1 & -> & Hnd1 & Htext1 & Hin1).
    cbn [bind].
    destruct (IH (fun f Hf => Hall f (or_intror Hf)) acc1 Hnd1 Htext1)
      as (acc' & -> & Hnd' & Htext' & Hin').
    exists acc'. repeat split; auto.
    + intros Hv. apply Hin' in Hv. destruct Hv as [Hv|(f & its & Hf & Hd & Hi)].
      * apply Hin1 in Hv. destruct Hv as [Hv|Hv]; auto.
        apply Hmem in Hv. destruct Hv as (its & Hd & Hi).
        right. exists fields, its. simpl. auto.
      * right. exists f, its. simpl. auto.
    + intros [Hv|(f & its & [<-|Hf] & Hd & Hi)]; apply Hin'.
      * left. apply Hin1. auto.
      * left. apply Hin1. right. apply Hmem. eauto.
      * right. eauto.
Qed.

Lemma string_lt_total (s t : string) :
  String.ltb s t = false -> s <> t -> string_lt t s.
Proof.
  unfold string_lt, String.ltb. intros Hlt Hne.
  rewrite String.compare_antisym.
  destruct (String.compare s t) eqn:E; simpl; auto; try discriminate Hlt.
  apply String.compare_eq_iff in E. contradiction.
Qed.

(** Inserting a new text value into a sorted list of text values. *)
Lemma sorted_insert_text (s : string) (ss : list string) :
  Sorted string_lt ss -> ~ In s ss ->
  exists ss',
    sorted_insert (VStr s) (map VStr ss) = Ok (map VStr ss') /\
    Sorted string_lt ss' /\
    Permutation (s :: ss) ss' /\
    forall y, string_lt y s -> HdRel string_lt y ss -> HdRel string_lt y ss'.
Proof.
  induction ss as [|t r IH]; intros Hsorted Hnew.
  - exists [s]. simpl. repeat split; auto.
  - apply Sorted_inv in Hsorted. destruct Hsorted as [Hr Hhd].
    cbn [map sorted_insert py_lt bind].
    destruct (String.ltb s t) eqn:E.
    + exists (s :: t :: r). repeat split; auto.
    + assert (Hts : string_lt t s).
      { apply string_lt_total; auto. intros ->. apply Hnew. now left. }
      destruct (IH Hr) as (r' & -> & Hsr' & Hperm & Hkeep).
      { intros Hin. apply Hnew. now right. }
      exists (t :: r'). cbn [bind map]. repeat split; auto.
      * eapply perm_trans; [apply perm_swap|]. now apply perm_skip.
      * intros y _ Hy. apply HdRel_inv in Hy. now constructor.
Qed.

Lemma py_sorted_text (ss : list string) :
  NoDup ss ->
  exists ss',
    py_sorted (map VStr ss) = Ok (map VStr ss') /\
    Sorted string_lt ss' /\
    Permutation ss ss'.
Proof.
  induction 1 as [|s r Hnew _ (r' & IHeq & IHsorted & IHperm)].
  - exists []. simpl. auto.
  - cbn [map py_sorted]. rewrite IHeq. cbn [bind].
    destruct (sorted_insert_text s r' IHsorted) as (ss' & -> & Hs & Hp & _).
    { intros Hin. apply Hnew.
      eapply Permutation_in; [apply Permutation_sym; exact IHperm|exact Hin]. }
    exists ss'. repeat split; auto.
    eapply perm_trans; [apply perm_skip; exact IHperm|exact Hp].
Qed.

Lemma shape_test (pipeline : list doc) :
  Nat.eqb (List.length pipeline) 3
  && dict_mem "$unwind" (nth 0 pipeline [])
  && dict_mem "$group" (nth 1 pipeline []) = true
  <-> fixed_shape pipeline.
Proof.
  split.
  - intros H. apply andb_prop in H. destruct H as [H Hg].
    apply andb_prop in H. destruct H as [Hlen Hu].
    destruct pipeline as [|u [|g [|l [|]]]]; try discriminate Hlen.
    exists u, g, l. auto.
  - intros (u & g & l & -> & Hu & Hg). simpl. now rewrite Hu, Hg.
Qed.

(** C4, as amended: on a pipeline of exactly three stages whose first is
    an unwind and whose second is a group, and a collection in which every
    document's [schedule_details], when present, is a mapping whose [days],
    when present, is a sequence of text values, [aggregate] returns one
    single-field record per distinct day of the collection, in ascending
    lexicographic order, each day once.  On a pipeline of any other shape
    it returns the empty sequence, whatever the collection holds. *)
Theorem aggregate_distinct_days (data : store) (pipeline : list doc) :
  (fixed_shape pipeline ->
   (forall key fields, In (key, fields) data -> text_days fields) ->
   distinct_days_sorted data (aggregate data pipeline))
  /\
  (~ fixed_shape pipeline -> aggregate data pipeline = Ok []).
Proof.
  split.
  - intros Hshape Htext. unfold aggregate, distinct_days_sorted.
    apply shape_test in Hshape. rewrite Hshape.
    destruct (collect_days_text (map snd data)) with (acc := @nil value)
      as (acc & -> & Hnd & Hall & Hin).
    { intros fields Hf. apply in_map_iff in Hf.
      destruct Hf as ([k f] & <- & Hkf). eapply Htext; eauto. }
    { constructor. }
    { constructor. }
    destruct (all_text_inv acc Hall) as (ss & ->).
    apply NoDup_map_inv in Hnd. cbn [bind].
    destruct (py_sorted_text ss Hnd) as (days & -> & Hsorted & Hperm).
    exists days. cbn [bind]. rewrite map_map. repeat split; auto.
    + eapply Permutation_NoDup; eauto.
    + intros Hday.
      assert (Hacc : In (VStr day) (map VStr ss)).
      { apply in_map. eapply Permutation_in;
          [apply Permutation_sym; exact Hperm|exact Hday]. }
      apply Hin in Hacc. destruct Hacc as [[]|(f & its & Hf & Hd & Hi)].
      apply in_map_iff in Hf. destruct Hf as ([k f'] & <- & Hkf).
      exists k, f', its. auto.
    + intros (k & f & its & Hkf & Hd & Hi).
      assert (Hacc : In (VStr day) (map VStr ss)).
      { apply Hin. right. exists f, its. repeat split; auto.
        apply in_map_iff. exists (k, f). auto. }
      apply in_map_iff in Hacc. destruct Hacc as (s & [= ->] & Hs).
      eapply Permutation_in; eauto.
  - intros Hno. unfold aggregate.
    destruct (Nat.eqb (List.length pipeline) 3
              && dict_mem "$unwind" (nth 0 pipeline [])
              && dict_mem "$group" (nth 1 pipeline [])) eqn:E; auto.
    exfalso. apply Hno. now apply shape_test.
Qed.

Lemma aggregate_distinct_days_witness :
  distinct_days_sorted
    [(VStr "Chess Club",
      [("schedule_details",
        VDict [("days", VList [VStr "Monday"; VStr "Friday"])])]);
     (VStr "Math Club",
      [("schedule_details", VDict [("days", VList [VStr "Tuesday"])])]);
     (VStr "Drama Club",
      [("schedule_details", VDict [("days", VList [VStr "Monday"])])])]
    (aggregate
       [(VStr "Chess Club",
         [("schedule_details",
           VDict [("days", VList [VStr "Monday"; VStr "Friday"])])]);
        (VStr "Math Club",
         [("schedule_details", VDict [("days", VList [VStr "Tuesday"])])]);
        (VStr "Drama Club",
         [("schedule_details", VDict [("days", VList [VStr "Monday"])])])]
       [[("$unwind", VStr "$schedule_details.days")];
        [("$group", VDict [("_id", VStr "$schedule_details.days")])];
        [("$sort", VDict [("_id", VInt 1)])]]).
Proof.
  apply (proj1 (aggregate_distinct_days _ _)).
  - do 3 eexists. repeat split.
  - intros key fields [[= <- <-]|[[= <- <-]|[[= <- <-]|[]]]];
      repeat constructor.
Defined.

(** C4 as stated fails: a document whose [schedule_details] is [None]
    makes ["days" in value["schedule_details"]] raise [TypeError]. *)
Lemma aggregate_raises_on_malformed_document :
  let data := [(VStr "Chess Club", [("schedule_details", VNone)])] in
  let pipeline := [[("$unwind", VStr "$schedule_details.days")];
                   [("$group", VDict [])];
                   [("$sort", VDict [])]] in
  fixed_shape pipeline /\
  aggregate data pipeline = Raise TypeError /\
  ~ distinct_days_sorted data (aggregate data pipeline).
Proof.
  cbv zeta. split; [|split].
  - do 3 eexists. repeat split.
  - reflexivity.
  - intros (days & H & _). discriminate H.
Qed.

(* ================================================================== *)
(** * The specification's test scenarios, run on the model *)

(** Dotted-path set-membership query. *)
Example monday_query :
  find (insert_all [chess; math])
       (Some [("schedule_details.days",
               VDict [("$in", VList [VStr "Monday"])])])
  = Ok [chess].
Proof. reflexivity. Qed.

(** Array append, then remove. *)
Example append_then_remove :
  let data0 := insert_all [chess] in
  let data1 :=
    fst (update_one data0 (by_id "Chess Club")
           [("$push", VDict [("participants", VStr "b@x.edu")])]) in
  let data2 :=
    fst (update_one data1 (by_id "Chess Club")
           [("$pull", VDict [("participants", VStr "a@x.edu")])]) in
  fmap (option_map (dict_get "participants"))
       (find_one data1 (by_id "Chess Club"))
  = Ok (Some (Some (VList [VStr "a@x.edu"; VStr "b@x.edu"])))
  /\
  fmap (option_map (dict_get "participants"))
       (find_one data2 (by_id "Chess Club"))
  = Ok (Some (Some (VList [VStr "b@x.edu"]))).
Proof. split; reflexivity. Qed.

(** Distinct days by the fixed aggregation. *)
Example distinct_days :
  aggregate (insert_all [chess; math; drama])
            [[("$unwind", VStr "$schedule_details.days")];
             [("$group", VDict [("_id", VStr "$schedule_details.days")])];
             [("$sort", VDict [("_id", VInt 1)])]]
  = Ok [[("_id", VStr "Friday")]; [("_id", VStr "Monday")];
        [("_id", VStr "Tuesday")]].
Proof. reflexivity. Qed.

(** An id equal to a key already in the store ([True == 1]) overwrites that
    document and keeps the old key object. *)
Example equal_ids_share_a_slot :
  let data := fst (insert_one [(VInt 1, [("name", VStr "old")])]
                              [("_id", VBool true); ("name", VStr "new")]) in
  data = [(VInt 1, [("name", VStr "new")])] /\
  find_one data (Some [("_id", VBool true)])
  = Ok (Some [("_id", VInt 1); ("name", VStr "new")]).
Proof. split; reflexivity. Qed.

(** ** At the edges of the amended properties *)

(** Days that are numbers come back in numeric order, not in the order of
    their text. *)
Example numeric_days_sort_numerically :
  aggregate
    [(VStr "a",
      [("schedule_details", VDict [("days", VList [VInt 10; VInt 9])])])]
    [[("$unwind", VNone)]; [("$group", VNone)]; []]
  = Ok [[("_id", VInt 9)]; [("_id", VInt 10)]].
Proof. reflexivity. Qed.

(** Days of mixed types cannot be sorted. *)
Example mixed_days_raise :
  aggregate
    [(VStr "a",
      [("schedule_details",
        VDict [("days", VList [VStr "Monday"; VInt 9])])])]
    [[("$unwind", VNone)]; [("$group", VNone)]; []]
  = Raise TypeError.
Proof. reflexivity. Qed.

(** Pushing onto ["_id"] gives the stored document an ["_id"] field of its
    own, which hides the key in what [find_one] returns: the next update
    with an operator looks up a list in [self.data] and raises, while one
    without operators still reports a modified document. *)
Example pushed_id_hides_the_key :
  let data :=
    fst (update_one (insert_all [chess]) (by_id "Chess Club")
           [("$push", VDict [("_id", VStr "x")])]) in
  fmap (option_map (dict_get "_id")) (find_one data (by_id "Chess Club"))
  = Ok (Some (Some (VList [VStr "x"])))
  /\
  snd (update_one data (by_id "Chess Club")
         [("$pull", VDict [("participants", VStr "a@x.edu")])])
  = Raise TypeError
  /\
  update_one data (by_id "Chess Club") []
  = (data, Ok {| modified_count := 1 |}).
Proof. repeat split; reflexivity. Qed.

(** On a resolved value that is text, [in] is a substring test and rejects
    a candidate that is not text. *)
Example in_test_on_text :
  clause_step VNone [("a", VDict [("b", VStr "Monday")])] true "a.b"
              (VDict [("$in", VList [VStr "Mon"])])
  = Ok (Continue true)
  /\
  clause_step VNone [("a", VDict [("b", VStr "Monday")])] true "a.b"
              (VDict [("$in", VList [VInt 1; VStr "Mon"])])
  = Raise TypeError.
Proof. split; reflexivity. Qed.

(** ** The seed activities *)

(** Seeding the empty database stores the thirteen activities, and the
    fixed aggregation then lists the seven days of the week. *)
Example seeded_activities :
  let db := fst (init_database initial_activities []
                   {| activities_data := []; teachers_data := [] |}) in
  count_documents (activities_data db) None = Ok 13%nat /\
  aggregate (activities_data db)
            [[("$unwind", VStr "$schedule_details.days")];
             [("$group", VDict [("_id", VStr "$schedule_details.days")])];
             [("$sort", VDict [("_id", VInt 1)])]]
  = Ok (map (fun day => [("_id", VStr day)])
            ["Friday"; "Monday"; "Saturday"; "Sunday"; "Thursday";
             "Tuesday"; "Wednesday"]).
Proof. split; vm_compute; reflexivity. Qed.

(** The weekend activities, by a set-membership query on the nested
    days. *)
Example weekend_activities :
  let db := fst (init_database initial_activities []
                   {| activities_data := []; teachers_data := [] |}) in
  fmap (map (dict_get "_id"))
       (find (activities_data db)
             (Some [("schedule_details.days",
                     VDict [("$in", VList [VStr "Saturday"; VStr "Sunday"])])]))
  = Ok [Some (VStr "Weekend Robotics Workshop");
        Some (VStr "Science Olympiad");
        Some (VStr "Sunday Chess Tournament")].
Proof. vm_compute. reflexivity. Qed.

(* ================================================================== *)
(** * Further properties of the code *)

(** ** [find]: what a query selects *)

Lemma clause_step_break key fields matched q_key q_value b :
  clause_step key fields matched q_key q_value = Ok (Break b) -> b = false.
Proof.
  unfold clause_step.
  destruct (String.eqb q_key "_id").
  - destruct (negb (py_eq key q_value)); now intros [= <-].
  - destruct (contains_dot q_key).
    + destruct (descend (split_dot q_key) (VDict fields) matched) as [nv m].
      destruct m; [|discriminate].
      destruct (in_marker q_value) as [candidates|]; [|discriminate].
      destruct (py_iter candidates) as [items|]; [|discriminate].
      cbn [bind]. destruct (py_any_in items nv); discriminate.
    + match goal with |- context [if ?c then _ else _] => destruct c end;
        now intros [= <-].
Qed.

(** The clauses after a prefix are evaluated from a raised flag, and only
    for a document the prefix let through. *)
Lemma match_query_app key fields (q q' : doc) :
  forall matched,
    match_query key fields matched (q ++ q') =
    (b <- match_query key fields matched q ;;
     if b then match_query key fields true q' else Ok false).
Proof.
  induction q as [|[q_key q_value] q IH]; intros matched.
  - cbn [app match_query bind]. destruct matched; auto.
    apply match_query_false.
  - cbn [app match_query].
    destruct (clause_step key fields matched q_key q_value) as [[b|m]|e] eqn:E;
      cbn [bind]; auto.
    now rewrite (clause_step_break _ _ _ _ _ _ E).
Qed.

Lemma find_loop_filter (q : doc) (data : store) (found : list doc) :
  find_loop data q = Ok found ->
  found = map (fun kv => with_id (fst kv) (snd kv))
              (filter (fun kv => matches (fst kv) (snd kv) q) data).
Proof.
  revert found. induction data as [|[k v] data IH]; cbn [find_loop];
    intros found.
  - now intros [= <-].
  - unfold matches at 1. cbn [filter fst snd].
    destruct (match_query k v true q) as [m|]; [|discriminate]. cbn [bind].
    destruct (find_loop data q) as [rest|]; [|discriminate]. cbn [bind].
    intros [= <-]. rewrite (IH rest eq_refl).
    unfold matches at 2. cbn [fst snd].
    destruct (match_query k v true q) as [[|]|]; destruct m; reflexivity.
Qed.

(** X1: when [find(query)] returns, it returns the stored documents that
    pass every clause, each with its key as ["_id"], in the order of the
    store, and nothing else. *)
Theorem find_returns_the_matching_documents
        (data : store) (query : doc) (found : list doc) :
  find data (Some query) = Ok found ->
  found = map (fun kv => with_id (fst kv) (snd kv))
              (filter (fun kv => matches (fst kv) (snd kv) query) data).
Proof.
  cbn [find]. apply find_loop_filter.
Qed.

Lemma find_returns_the_matching_documents_witness :
  [[("_id", VStr "b"); ("role", VStr "admin")]] =
  map (fun kv => with_id (fst kv) (snd kv))
      (filter (fun kv => matches (fst kv) (snd kv) [("role", VStr "admin")])
              [(VStr "a", [("role", VStr "teacher")]);
               (VStr "b", [("role", VStr "admin")])]).
Proof.
  apply find_returns_the_matching_documents. reflexivity.
Defined.

(** X2: the clauses of a query are a conjunction, evaluated in order: a
    document passes [q ++ q'] exactly when it passes [q] and passes [q'];
    so adding clauses to a query can only take documents away from what
    [find] returns. *)
Theorem query_clauses_conjoin (q q' : doc) :
  (forall key fields,
     matches key fields (q ++ q') =
     matches key fields q && matches key fields q')
  /\
  (forall data found,
     find data (Some (q ++ q')) = Ok found ->
     exists found',
       find data (Some q) = Ok found' /\ incl found found').
Proof.
  assert (Hconj : forall key fields,
             matches key fields (q ++ q') =
             matches key fields q && matches key fields q').
  { intros key fields. unfold matches. rewrite match_query_app.
    destruct (match_query key fields true q) as [[|]|]; reflexivity. }
  split; [exact Hconj|].
  cbn [find]. intros data. induction data as [|[k v] data IH];
    cbn [find_loop]; intros found.
  - intros [= <-]. exists []. split; auto. apply incl_refl.
  - rewrite match_query_app.
    destruct (match_query k v true q) as [m|]; [|discriminate]. cbn [bind].
    destruct (if m then match_query k v true q' else Ok false) as [m'|] eqn:E;
      [|discriminate]. cbn [bind].
    destruct (find_loop data (q ++ q')) as [rest|]; [|discriminate].
    cbn [bind]. intros [= <-].
    destruct (IH rest eq_refl) as (rest' & -> & Hincl). cbn [bind].
    eexists. split; [reflexivity|].
    destruct m.
    + destruct m'.
      * intros d [<-|Hd]; [now left|right; auto].
      * now apply incl_tl.
    + injection E as <-. exact Hincl.
Qed.

(** X3: a clause on a plain field (no dot, not ["_id"]) selects exactly the
    documents that have the field with a value equal to the query value,
    and never raises. *)
Theorem find_by_field
        (data : store) (q_key : string) (q_value : value) :
  q_key <> "_id" ->
  contains_dot q_key = false ->
  find data (Some [(q_key, q_value)]) =
  Ok (map (fun kv => with_id (fst kv) (snd kv))
          (filter (fun kv => field_equals q_key q_value (snd kv)) data)).
Proof.
  intros Hid Hdot. apply String.eqb_neq in Hid. cbn [find].
  induction data as [|[k v] data IH]; auto.
  cbn [find_loop match_query]. unfold clause_step at 1.
  rewrite Hid, Hdot. unfold dict_mem, field_equals at 1. cbn [filter snd fst].
  rewrite IH.
  destruct (dict_get q_key v) as [x|]; cbn [negb orb bind].
  - destruct (py_eq x q_value); reflexivity.
  - reflexivity.
Qed.

Lemma find_by_field_witness :
  find [(VStr "mchen", [("role", VStr "teacher")]);
        (VStr "principal", [("role", VStr "admin")])]
       (Some [("role", VStr "admin")])
  = Ok [[("_id", VStr "principal"); ("role", VStr "admin")]].
Proof.
  refine (find_by_field
            [(VStr "mchen", [("role", VStr "teacher")]);
             (VStr "principal", [("role", VStr "admin")])]
            "role" (VStr "admin") _ _).
  - discriminate.
  - reflexivity.
Defined.

(** X4: a dotted clause whose ["$in"] holds no candidate selects nothing,
    on every store and without raising, whatever the path leads to. *)
Theorem empty_in_selects_nothing
        (data : store) (q_key : string) (q_value : value) :
  contains_dot q_key = true ->
  in_marker q_value = Some (VList []) ->
  find data (Some [(q_key, q_value)]) = Ok [].
Proof.
  intros Hdot Hmark. pose proof (id_key_has_no_dot _ Hdot) as Hid.
  cbn [find]. induction data as [|[k v] data IH]; auto.
  cbn [find_loop match_query]. unfold clause_step at 1.
  rewrite Hid, Hdot, Hmark.
  destruct (descend (split_dot q_key) (VDict v) true) as [nv [|]];
    cbn [py_iter py_any_in bind negb]; rewrite IH; reflexivity.
Qed.

Lemma empty_in_selects_nothing_witness :
  find [(VStr "Chess Club",
         [("schedule_details", VDict [("days", VList [VStr "Monday"])])]);
        (VStr "Art Club", [("schedule_details", VInt 3)])]
       (Some [("schedule_details.days", VDict [("$in", VList [])])])
  = Ok [].
Proof.
  apply empty_in_selects_nothing; reflexivity.
Defined.

Lemma clause_step_without_marker key fields matched q_key q_value :
  in_marker q_value = None ->
  exists f, clause_step key fields matched q_key q_value = Ok f.
Proof.
  intros Hmark. unfold clause_step. rewrite Hmark.
  destruct (String.eqb q_key "_id").
  - destruct (negb (py_eq key q_value)); eauto.
  - destruct (contains_dot q_key).
    + destruct (descend (split_dot q_key) (VDict fields) matched) as [nv [|]];
        eauto.
    + match goal with |- context [if ?c then _ else _] => destruct c end;
        eauto.
Qed.

(** X5: [find] can raise only through an ["$in"] test: a query none of
    whose values is a mapping with ["$in"] returns a list on every store,
    however the stored documents are shaped. *)
Theorem find_without_marker_returns (data : store) (query : doc) :
  (forall q_key q_value, In (q_key, q_value) query ->
                         in_marker q_value = None) ->
  exists found, find data (Some query) = Ok found.
Proof.
  intros Hq.
  assert (Hm : forall key fields matched,
             exists b, match_query key fields matched query = Ok b).
  { induction query as [|[q_key q_value] query IH]; intros key fields matched.
    - cbn. eauto.
    - cbn [match_query].
      destruct (clause_step_without_marker key fields matched q_key q_value)
        as (f & ->).
      { apply (Hq q_key). now left. }
      cbn [bind]. destruct f; eauto.
      apply IH. intros k' v' Hin. apply (Hq k'). now right. }
  cbn [find]. induction data as [|[k v] data (rest & IH)].
  - cbn. eauto.
  - cbn [find_loop]. destruct (Hm k v true) as (b & ->). rewrite IH.
    cbn [bind]. eauto.
Qed.

Lemma find_without_marker_returns_witness :
  exists found,
    find [(VStr "Art Club", [("schedule_details", VInt 3)])]
         (Some [("schedule_details.days", VStr "Monday");
                ("max_participants", VInt 15)])
    = Ok found.
Proof.
  apply find_without_marker_returns.
  intros q_key q_value [[= <- <-]|[[= <- <-]|[]]]; reflexivity.
Defined.

Lemma query_clauses_conjoin_witness :
  exists found',
    find [(VStr "a", [("role", VStr "admin")]);
          (VStr "b", [("role", VStr "teacher")])]
         (Some ([("role", VStr "admin")])) = Ok found' /\
    incl [[("_id", VStr "a"); ("role", VStr "admin")]] found'.
Proof.
  apply (proj2 (query_clauses_conjoin [("role", VStr "admin")]
                                      [("_id", VStr "a")])).
  reflexivity.
Defined.

(** ** [insert_one] and the ids of the store *)

Ltac eqb_to_eq :=
  repeat match goal with
         | H : Z.eqb _ _ = true |- _ => apply Z.eqb_eq in H
         | H : Bool.eqb _ _ = true |- _ => apply Bool.eqb_prop in H
         | H : String.eqb _ _ = true |- _ => apply String.eqb_eq in H
         end;
  repeat match goal with
         | b : bool |- _ => destruct b
         end;
  cbn [Z.b2z Bool.eqb] in *;
  try discriminate;
  try (apply Z.eqb_eq; lia);
  try (apply String.eqb_eq; congruence);
  try reflexivity;
  try lia.

Lemma py_eq_key_join (k1 k2 I : value) :
  hashable k1 = true ->
  py_eq k1 I = true -> py_eq k2 I = true -> py_eq k1 k2 = true.
Proof.
  destruct k1 as [|x|n|s|l|d]; try discriminate; intros _;
    destruct I as [|y|m|t|l'|d']; try discriminate;
    destruct k2 as [|z|p|u|l''|d'']; try discriminate;
    cbn [py_eq]; intros H1 H2; eqb_to_eq.
Qed.

Lemma filter_none {A : Type} (f : A -> bool) (l : list A) :
  (forall x, In x l -> f x = false) -> filter f l = [].
Proof.
  induction l as [|a l IH]; simpl; auto.
  intros H. rewrite (H a (or_introl eq_refl)). apply IH. auto.
Qed.

Lemma filter_id_unique (I : value) (data : store) :
  (forall k v, In (k, v) data -> hashable k = true) ->
  distinct_keys data ->
  (List.length (filter (fun kv => py_eq (fst kv) I) data) <= 1)%nat.
Proof.
  induction data as [|[k v] data IH]; simpl; intros Hh Hd; [lia|].
  destruct Hd as [Hhead Hrest].
  destruct (py_eq k I) eqn:E.
  - rewrite filter_none; [simpl; lia|].
    intros [k' v'] Hin. cbn [fst].
    destruct (py_eq k' I) eqn:E'; auto.
    rewrite <- (Hhead _ _ Hin). symmetry.
    apply (py_eq_key_join k k' I); auto. apply (Hh k v). now left.
  - apply IH; auto. intros k' v' Hin. apply (Hh k' v'). now right.
Qed.

(** X6: on a store built by [insert_one], [find({"_id": I})] returns at
    most one document, and never raises. *)
Theorem find_by_id_returns_at_most_one (data : store) (I : value) :
  store_ok data ->
  exists found,
    find data (Some [("_id", I)]) = Ok found /\
    (List.length found <= 1)%nat.
Proof.
  intros [Hkeys Hdist]. cbn [find]. rewrite find_loop_id.
  eexists. split; [reflexivity|]. rewrite length_map.
  apply filter_id_unique; auto. intros k v Hin. apply (Hkeys k v Hin).
Qed.

Lemma find_by_id_returns_at_most_one_witness :
  exists found,
    find [(VInt 1, [("name", VStr "one")]); (VStr "1", [("name", VStr "text")])]
         (Some [("_id", VBool true)]) = Ok found /\
    (List.length found <= 1)%nat.
Proof.
  apply find_by_id_returns_at_most_one. split.
  - intros k v [[= <- <-]|[[= <- <-]|[]]]; split; auto;
      simpl; intuition discriminate.
  - simpl. split; [|split; [intros ? ? []|exact Logic.I]].
    intros k' v' [[= <- <-]|[]]. reflexivity.
Defined.

Lemma store_set_absent (k : value) (v : doc) (data : store) :
  existsb (fun kv => py_eq (fst kv) k) data = false ->
  store_set k v data = data ++ [(k, v)].
Proof.
  induction data as [|[k' v'] data IH]; simpl; auto.
  destruct (py_eq k' k); simpl; [discriminate|].
  intros H. now rewrite IH.
Qed.

Lemma store_set_present (k : value) (v : doc) (data : store) :
  existsb (fun kv => py_eq (fst kv) k) data = true ->
  map fst (store_set k v data) = map fst data /\
  store_lookup k (store_set k v data) = Some v.
Proof.
  induction data as [|[k' v'] data IH]; simpl; [discriminate|].
  destruct (py_eq k' k) eqn:E; simpl.
  - intros _. now rewrite E.
  - intros H. destruct (IH H) as [Hk Hl]. now rewrite E, Hk, Hl.
Qed.

(** X7: a successful [insert_one] returns the id it popped from the
    document.  When no stored id equals it, the document goes to the end of
    the store (one more document); when one does, the ids and their order
    stay as they are and the old document under that id is replaced. *)
Theorem insert_one_appends_or_overwrites
        (data data' : store) (D : doc) (r : InsertResult) :
  insert_one data D = (data', Ok r) ->
  dict_get "_id" D = Some (inserted_id r) /\
  if existsb (fun kv => py_eq (fst kv) (inserted_id r)) data
  then map fst data' = map fst data /\
       store_lookup (inserted_id r) data' = Some (dict_del "_id" D)
  else data' = data ++ [(inserted_id r, dict_del "_id" D)].
Proof.
  unfold insert_one.
  destruct (dict_get "_id" D) as [doc_id|]; [|discriminate].
  destruct (hashable doc_id); [|discriminate].
  intros [= <- <-]. cbn [inserted_id]. split; auto.
  destruct (existsb (fun kv => py_eq (fst kv) doc_id) data) eqn:E.
  - now apply store_set_present.
  - now apply store_set_absent.
Qed.

Lemma insert_one_appends_or_overwrites_witness :
  dict_get "_id" [("_id", VStr "Art Club"); ("max_participants", VInt 15)]
  = Some (VStr "Art Club") /\
  if existsb (fun kv => py_eq (fst kv) (VStr "Art Club"))
             [(VStr "Chess Club", []); (VStr "Art Club", [("old", VNone)])]
  then map fst [(VStr "Chess Club", []);
                (VStr "Art Club", [("max_participants", VInt 15)])]
       = map fst [(VStr "Chess Club", []); (VStr "Art Club", [("old", VNone)])]
       /\
       store_lookup (VStr "Art Club")
         [(VStr "Chess Club", []);
          (VStr "Art Club", [("max_participants", VInt 15)])]
       = Some (dict_del "_id"
                 [("_id", VStr "Art Club"); ("max_participants", VInt 15)])
  else [(VStr "Chess Club", []);
        (VStr "Art Club", [("max_participants", VInt 15)])]
       = [(VStr "Chess Club", []); (VStr "Art Club", [("old", VNone)])]
         ++ [(VStr "Art Club",
              dict_del "_id"
                [("_id", VStr "Art Club"); ("max_participants", VInt 15)])].
Proof.
  apply (insert_one_appends_or_overwrites
           [(VStr "Chess Club", []); (VStr "Art Club", [("old", VNone)])]
           _ [("_id", VStr "Art Club"); ("max_participants", VInt 15)]
           {| inserted_id := VStr "Art Club" |}).
  reflexivity.
Defined.

(** X9: the empty store is of the form [insert_one] builds (hashable,
    pairwise different ids; no stored document with an ["_id"] field), and
    [insert_one] keeps a store in that form whether it returns or raises. *)
Theorem insert_one_keeps_the_store_well_formed :
  store_ok [] /\
  forall data D, store_ok data -> store_ok (fst (insert_one data D)).
Proof.
  split.
  - split; [intros k v []|exact Logic.I].
  - intros data D Hok.
    destruct (insert_one data D) as [data' [r|e]] eqn:E; cbn [fst].
    + eapply insert_one_store_ok; eauto.
    + unfold insert_one in E.
      destruct (dict_get "_id" D) as [doc_id|]; [|now injection E as <- _].
      destruct (hashable doc_id); [discriminate|now injection E as <- _].
Qed.

Lemma insert_one_keeps_the_store_well_formed_witness :
  store_ok (fst (insert_one [] [("_id", VInt 7); ("name", VStr "x")])).
Proof.
  apply (proj2 insert_one_keeps_the_store_well_formed).
  apply (proj1 insert_one_keeps_the_store_well_formed).
Defined.

(** X10: on a store built by [insert_one], every document [find] returns
    is a stored document with its key merged in: its ["_id"] field is the
    key it is stored under, and [self.data] at that key gives its fields
    back, so the lookup [self.data[doc["_id"]]] of [update_one] succeeds. *)
Theorem find_returns_stored_documents
        (data : store) (Q : option doc) (found : list doc) :
  store_ok data ->
  find data Q = Ok found ->
  forall d, In d found ->
    exists k v,
      In (k, v) data /\ d = with_id k v /\
      dict_get "_id" d = Some k /\
      store_get k data = Ok v.
Proof.
  intros [Hkeys Hdist] Hfind d Hd.
  assert (Hmem : exists k v, In (k, v) data /\ d = with_id k v).
  { destruct Q as [q|]; cbn [find] in Hfind.
    - eapply find_loop_members; eauto.
    - injection Hfind as <-. apply in_map_iff in Hd.
      destruct Hd as ([k v] & <- & Hin). eauto. }
  destruct Hmem as (k & v & Hin & ->).
  destruct (Hkeys _ _ Hin) as [Hh Hno].
  exists k, v. repeat split; auto.
  - unfold with_id. rewrite dict_get_update_absent by assumption. reflexivity.
  - unfold store_get. rewrite Hh.
    now rewrite (store_lookup_member _ _ _ Hdist Hh Hin).
Qed.

Lemma find_returns_stored_documents_witness :
  exists k v,
    In (k, v) [(VStr "Chess Club", [("max_participants", VInt 12)])] /\
    [("_id", VStr "Chess Club"); ("max_participants", VInt 12)] = with_id k v /\
    dict_get "_id" [("_id", VStr "Chess Club"); ("max_participants", VInt 12)]
    = Some k /\
    store_get k [(VStr "Chess Club", [("max_participants", VInt 12)])] = Ok v.
Proof.
  apply (find_returns_stored_documents
           [(VStr "Chess Club", [("max_participants", VInt 12)])] None
           [[("_id", VStr "Chess Club"); ("max_participants", VInt 12)]]).
  - split.
    + intros k v [[= <- <-]|[]]. split; auto. simpl. intuition discriminate.
    + simpl. split; auto. intros k' v' [].
  - reflexivity.
  - now left.
Defined.

(** ** [update_one]: what the operators do to the store *)

Lemma dict_set_absent (k : string) (v : value) (d : doc) :
  dict_get k d = None -> dict_set k v d = d ++ [(k, v)].
Proof.
  induction d as [|[k' v'] d IH]; simpl; auto.
  destruct (String.eqb k k'); [discriminate|].
  intros H. now rewrite IH.
Qed.

Lemma dict_set_same (k : string) (v : value) (d : doc) :
  dict_get k d = Some v -> dict_set k v d = d.
Proof.
  induction d as [|[k' v'] d IH]; simpl; [discriminate|].
  destruct (String.eqb k k').
  - now intros [= ->].
  - intros H. now rewrite IH.
Qed.

Lemma dict_set_twice (k : string) (v1 v2 : value) (d : doc) :
  dict_get k d <> None ->
  dict_set k v2 (dict_set k v1 d) = dict_set k v2 d.
Proof.
  induction d as [|[k' v'] d IH]; simpl; [congruence|].
  destruct (String.eqb k k') eqn:E; simpl; rewrite E; auto.
  intros H. now rewrite IH.
Qed.

Lemma store_set_twice (k : value) (d1 d2 old : doc) (data : store) :
  store_lookup k data = Some old ->
  store_set k d2 (store_set k d1 data) = store_set k d2 data.
Proof.
  induction data as [|[k' v'] data IH]; simpl; [discriminate|].
  destruct (py_eq k' k) eqn:E; simpl; rewrite E; auto.
  intros H. now rewrite IH.
Qed.

(** The store a loop of operator pairs leaves: the one it started from, or
    that one with the document under [doc_id] replaced. *)
Lemma run_pairs_store (f : doc -> string -> value -> result doc)
      (doc_id : value) (pairs : doc) :
  forall data,
    fst (run_pairs (on_stored f doc_id) data pairs) = data \/
    exists old d',
      store_lookup doc_id data = Some old /\
      fst (run_pairs (on_stored f doc_id) data pairs) =
      store_set doc_id d' data.
Proof.
  induction pairs as [|[key value] pairs IH]; intros data; cbn [run_pairs].
  - now left.
  - unfold on_stored at 1 3. unfold store_get.
    destruct (hashable doc_id); [|now left].
    destruct (store_lookup doc_id data) as [old|] eqn:El; [|now left].
    cbn [bind]. destruct (f old key value) as [d1|]; [|now left].
    cbn [bind]. right. exists old.
    destruct (IH (store_set doc_id d1 data)) as [->|(old1 & d' & _ & ->)].
    + eauto.
    + exists d'. split; auto. eapply store_set_twice; eauto.
Qed.

Lemma apply_operator_store (name : string)
      (f : doc -> string -> value -> result doc)
      (doc_id : value) (update : doc) (data : store) :
  fst (apply_operator name (on_stored f doc_id) data update) = data \/
  exists old d',
    store_lookup doc_id data = Some old /\
    fst (apply_operator name (on_stored f doc_id) data update) =
    store_set doc_id d' data.
Proof.
  unfold apply_operator.
  destruct (dict_get name update) as [[| | | | |pairs]|]; try now left.
  apply run_pairs_store.
Qed.

Lemma list_remove_appended (value : Py.value) (l : list Py.value) :
  py_eq value value = true ->
  existsb (fun x => py_eq x value) l = false ->
  list_remove value (l ++ [value]) = Ok l.
Proof.
  intros Hrefl. induction l as [|a l IH]; simpl.
  - now rewrite Hrefl.
  - destruct (py_eq a value); simpl; [discriminate|].
    intros H. now rewrite IH.
Qed.

(** X13: on a field that holds a list without the (hashable) value, a
    ["$push"] pair followed by the same ["$pull"] pair gives the store
    back as it was. *)
Theorem push_then_pull_restores
        (data : store) (doc_id : value) (stored : doc)
        (key : string) (value : Py.value) (l : list Py.value) :
  store_get doc_id data = Ok stored ->
  dict_get key stored = Some (VList l) ->
  existsb (fun x => py_eq x value) l = false ->
  hashable value = true ->
  exists pushed,
    on_stored push_field doc_id data key value = Ok pushed /\
    on_stored pull_field doc_id pushed key value = Ok data.
Proof.
  intros Hget Hfield Hout Hh.
  pose proof (store_get_inv _ _ _ Hget) as [_ Hlook].
  exists (store_set doc_id (dict_set key (VList (l ++ [value])) stored) data).
  split.
  - unfold on_stored. rewrite Hget. cbn [bind].
    unfold push_field, dict_mem. now rewrite Hfield.
  - unfold on_stored. rewrite (store_get_set _ _ _ _ Hget). cbn [bind].
    unfold pull_field. rewrite dict_get_set_eq. cbn [py_contains bind].
    rewrite existsb_app, Hout. cbn [existsb orb].
    rewrite (hashable_eq_refl _ Hh). cbn [orb].
    rewrite (list_remove_appended _ _ (hashable_eq_refl _ Hh) Hout).
    cbn [bind]. rewrite dict_set_twice by congruence.
    rewrite (dict_set_same _ _ _ Hfield).
    rewrite (store_set_twice _ _ _ _ _ Hlook).
    now rewrite (store_set_same _ _ _ Hlook).
Qed.

Lemma push_then_pull_restores_witness :
  exists pushed,
    on_stored push_field (VStr "Chess Club")
      [(VStr "Chess Club", [("participants", VList [VStr "a@x.edu"])])]
      "participants" (VStr "b@x.edu") = Ok pushed /\
    on_stored pull_field (VStr "Chess Club") pushed
      "participants" (VStr "b@x.edu")
    = Ok [(VStr "Chess Club", [("participants", VList [VStr "a@x.edu"])])].
Proof.
  apply (push_then_pull_restores _ _
           [("participants", VList [VStr "a@x.edu"])] _ _ [VStr "a@x.edu"]);
    reflexivity.
Defined.

(** ** [init_database]: what seeding stores *)

Lemma dict_update_fresh (d base : doc) :
  NoDup (map fst d) ->
  (forall k, In k (map fst d) -> ~ In k (map fst base)) ->
  dict_update base d = base ++ d.
Proof.
  unfold dict_update. revert base.
  induction d as [|[k v] d IH]; simpl; intros base Hnd Hfresh.
  - now rewrite app_nil_r.
  - inversion Hnd as [|? ? Hk Hd]; subst.
    rewrite (dict_set_absent k v base)
      by (apply dict_get_absent; apply Hfresh; now left).
    rewrite IH; auto.
    + now rewrite <- app_assoc.
    + intros k' Hk'. rewrite map_app, in_app_iff. simpl.
      intros [Hb|[<-|[]]]; [|contradiction].
      apply (Hfresh k'); auto.
Qed.

Lemma dict_del_absent (k : string) (d : doc) :
  ~ In k (map fst d) -> dict_del k d = d.
Proof.
  induction d as [|[k' v'] d IH]; simpl; auto.
  intros Hn. destruct (String.eqb_spec k k') as [->|_].
  - exfalso. auto.
  - rewrite IH; auto.
Qed.

(** Inserting [{"_id": key, **fields}] stores [fields] under [key]. *)
Lemma insert_seed (data : store) (key : value) (fields : doc) :
  seed_fields_ok fields ->
  hashable key = true ->
  insert_one data (with_id key fields) =
  (store_set key fields data, Ok {| inserted_id := key |}).
Proof.
  intros [Hnd Hno] Hh. unfold with_id.
  rewrite dict_update_fresh; auto.
  - unfold insert_one. cbn [app dict_get String.eqb Ascii.eqb Bool.eqb].
    rewrite Hh. cbn [dict_del String.eqb Ascii.eqb Bool.eqb].
    now rewrite dict_del_absent.
  - intros k Hk [<-|[]]. contradiction.
Qed.

Lemma distinct_keys_before (acc rest : store) (k : value) (v : doc) :
  distinct_keys (acc ++ (k, v) :: rest) ->
  existsb (fun kv => py_eq (fst kv) k) acc = false.
Proof.
  induction acc as [|[k0 v0] acc IH]; simpl; auto.
  intros [Hhead Hrest]. rewrite (Hhead k v), IH; auto.
  apply in_or_app. right. now left.
Qed.

Lemma seed_activities_fresh (items : list (value * doc)) :
  (forall name details, In (name, details) items ->
                        hashable name = true /\ seed_fields_ok details) ->
  forall acc,
    distinct_keys (acc ++ items) ->
    seed_activities acc items = (acc ++ items, Ok tt).
Proof.
  induction items as [|[name details] items IH]; intros Hok acc Hd.
  - cbn. now rewrite app_nil_r.
  - cbn [seed_activities].
    destruct (Hok name details (or_introl eq_refl)) as [Hh Hf].
    rewrite (insert_seed _ _ _ Hf Hh).
    rewrite (store_set_absent _ _ _ (distinct_keys_before _ _ _ _ Hd)).
    rewrite IH.
    + now rewrite <- app_assoc.
    + intros n d Hin. apply Hok. now right.
    + now rewrite <- app_assoc.
Qed.

Lemma seed_teachers_fresh (teachers : list doc) :
  (forall teacher, In teacher teachers ->
     seed_fields_ok teacher /\
     exists username, dict_get "username" teacher = Some username /\
                      hashable username = true) ->
  forall acc,
    distinct_keys (acc ++ map teacher_entry teachers) ->
    seed_teachers acc teachers = (acc ++ map teacher_entry teachers, Ok tt).
Proof.
  induction teachers as [|teacher teachers IH]; intros Hok acc Hd.
  - cbn. now rewrite app_nil_r.
  - cbn [seed_teachers map] in *.
    destruct (Hok teacher (or_introl eq_refl)) as [Hf (username & Hu & Hh)].
    unfold teacher_entry at 1 in Hd. unfold teacher_entry at 1.
    rewrite Hu in *. rewrite (insert_seed _ _ _ Hf Hh).
    rewrite (store_set_absent _ _ _ (distinct_keys_before _ _ _ _ Hd)).
    rewrite IH.
    + now rewrite <- app_assoc.
    + intros t Hin. apply Hok. now right.
    + now rewrite <- app_assoc.
Qed.

Lemma seed_if_empty_settles
      (seed : store -> store * result unit) (seeds data : store) :
  seed [] = (seeds, Ok tt) ->
  seed_if_empty seed data = (seed_or_keep seeds data, Ok tt).
Proof.
  intros Hseed. destruct data as [|entry data].
  - unfold seed_if_empty. rewrite count_all. cbn. exact Hseed.
  - now rewrite seed_if_empty_populated.
Qed.

Lemma init_database_settles
      (activities : list (value * doc)) (teachers : list doc) (db : database) :
  activities_ok activities ->
  teachers_ok teachers ->
  init_database activities teachers db =
  ({| activities_data := seed_or_keep activities (activities_data db);
      teachers_data :=
        seed_or_keep (map teacher_entry teachers) (teachers_data db) |},
   Ok tt).
Proof.
  intros [Had Haok] [Htd Htok]. unfold init_database.
  rewrite (seed_if_empty_settles _ activities).
  - rewrite (seed_if_empty_settles _ (map teacher_entry teachers)); auto.
    apply (seed_teachers_fresh teachers Htok []). exact Htd.
  - apply (seed_activities_fresh activities Haok []). exact Had.
Qed.

(** X14: with well-formed seeds (the activities a dictionary of records,
    the teachers records with different hashable user names, no record
    with an ["_id"] field of its own) [init_database] returns normally; a
    collection that was empty then holds exactly the seed records, in seed
    order, each teacher under its [username], and a collection that held a
    document is as it was. *)
Theorem init_database_stores_the_seeds
        (activities : list (value * doc)) (teachers : list doc)
        (db : database) :
  activities_ok activities ->
  teachers_ok teachers ->
  init_database activities teachers db =
  ({| activities_data := seed_or_keep activities (activities_data db);
      teachers_data :=
        seed_or_keep (map teacher_entry teachers) (teachers_data db) |},
   Ok tt)
  /\
  init_database activities teachers
                {| activities_data := []; teachers_data := [] |} =
  (seeded activities teachers, Ok tt).
Proof.
  intros Ha Ht. split.
  - now apply init_database_settles.
  - now rewrite init_database_settles.
Qed.

Lemma init_database_stores_the_seeds_witness :
  init_database
    [(VStr "Chess Club", [("max_participants", VInt 12)])]
    [[("username", VStr "mchen"); ("role", VStr "teacher")]]
    {| activities_data := []; teachers_data := [] |}
  = (seeded [(VStr "Chess Club", [("max_participants", VInt 12)])]
            [[("username", VStr "mchen"); ("role", VStr "teacher")]],
     Ok tt).
Proof.
  refine (proj2 (init_database_stores_the_seeds
                   _ _ {| activities_data := []; teachers_data := [] |} _ _)).
  - split.
    + simpl. split; auto. intros ? ? [].
    + intros name details [[= <- <-]|[]]. split; auto. split.
      * repeat constructor. simpl. tauto.
      * simpl. intuition discriminate.
  - split.
    + simpl. split; auto. intros ? ? [].
    + intros teacher [<-|[]]. split.
      * split.
        -- repeat constructor; simpl; intuition discriminate.
        -- simpl. intuition discriminate.
      * exists (VStr "mchen"). split; reflexivity.
Defined.

(** X15: with well-formed seeds [init_database] is idempotent from every
    state of the two collections: a second call returns normally and
    leaves the database the first call left. *)
Theorem init_database_is_idempotent
        (activities : list (value * doc)) (teachers : list doc)
        (db : database) :
  activities_ok activities ->
  teachers_ok teachers ->
  exists db',
    init_database activities teachers db = (db', Ok tt) /\
    init_database activities teachers db' = (db', Ok tt).
Proof.
  intros Ha Ht. eexists. split.
  - now apply init_database_settles.
  - rewrite init_database_settles by assumption. cbn [activities_data teachers_data].
    f_equal. f_equal.
    + now destruct (activities_data db), activities.
    + now destruct (teachers_data db), teachers.
Qed.

Lemma init_database_is_idempotent_witness :
  exists db',
    init_database [(VStr "Chess Club", [])] []
                  {| activities_data := [];
                     teachers_data := [(VStr "principal", [])] |}
    = (db', Ok tt) /\
    init_database [(VStr "Chess Club", [])] [] db' = (db', Ok tt).
Proof.
  apply init_database_is_idempotent.
  - split.
    + simpl. split; auto. intros ? ? [].
    + intros name details [[= <- <-]|[]]. split; auto. split.
      * constructor.
      * simpl. tauto.
  - split.
    + exact Logic.I.
    + intros teacher [].
Defined.

(** The seed activities of the source are well formed. *)
Lemma initial_activities_ok : activities_ok initial_activities.
Proof.
  split.
  - cbn [initial_activities distinct_keys]. repeat split;
      intros k' v' Hin; cbn [In] in Hin;
      repeat (destruct Hin as [Hin|Hin];
              [injection Hin as <- _; reflexivity|]);
      destruct Hin.
  - intros name details Hin. cbn [initial_activities In] in Hin.
    repeat (destruct Hin as [Hin|Hin];
            [injection Hin as <- <-; split; [reflexivity|];
             split; [repeat constructor; simpl; intuition discriminate
                    |simpl; intuition discriminate]|]).
    destruct Hin.
Qed.

(** ** [aggregate]: what it reads *)

(** X16: [aggregate] reads nothing of its pipeline but the shape: two
    pipelines of the recognised shape give the same result on the same
    collection, whatever field their stages name. *)
Theorem aggregate_reads_only_the_shape
        (data : store) (pipeline pipeline' : list doc) :
  fixed_shape pipeline ->
  fixed_shape pipeline' ->
  aggregate data pipeline = aggregate data pipeline'.
Proof.
  intros H H'. apply shape_test in H. apply shape_test in H'.
  unfold aggregate. now rewrite H, H'.
Qed.

Lemma aggregate_reads_only_the_shape_witness :
  aggregate [(VStr "Chess Club",
              [("schedule_details", VDict [("days", VList [VStr "Monday"])]);
               ("participants", VList [VStr "a@x.edu"])])]
            [[("$unwind", VStr "$participants")];
             [("$group", VDict [("_id", VStr "$participants")])];
             []]
  = aggregate [(VStr "Chess Club",
                [("schedule_details", VDict [("days", VList [VStr "Monday"])]);
                 ("participants", VList [VStr "a@x.edu"])])]
              [[("$unwind", VStr "$schedule_details.days")];
               [("$group", VDict [("_id", VStr "$schedule_details.days")])];
               [("$sort", VDict [("_id", VInt 1)])]].
Proof.
  apply aggregate_reads_only_the_shape; do 3 eexists; repeat split.
Defined.

Lemma collect_days_without_schedule (values : list doc) (days : list value) :
  (forall fields, In fields values ->
                  dict_get "schedule_details" fields = None) ->
  collect_days values days = Ok days.
Proof.
  induction values as [|fields values IH]; intros H; cbn [collect_days]; auto.
  unfold add_document_days. rewrite (H fields (or_introl eq_refl)).
  cbn [bind]. apply IH. intros f Hf. apply H. now right.
Qed.

(** X17: on a collection none of whose documents has a
    [schedule_details] field (the teacher accounts, for one), [aggregate]
    returns the empty list for every pipeline. *)
Theorem aggregate_without_schedules_is_empty
        (data : store) (pipeline : list doc) :
  (forall key fields, In (key, fields) data ->
                      dict_get "schedule_details" fields = None) ->
  aggregate data pipeline = Ok [].
Proof.
  intros H. unfold aggregate.
  destruct (Nat.eqb (List.length pipeline) 3
            && dict_mem "$unwind" (nth 0 pipeline [])
            && dict_mem "$group" (nth 1 pipeline [])); auto.
  rewrite collect_days_without_schedule; [reflexivity|].
  intros fields Hf. apply in_map_iff in Hf.
  destruct Hf as ([k f] & <- & Hin). eapply H; eauto.
Qed.

Lemma aggregate_without_schedules_is_empty_witness :
  aggregate [(VStr "mchen", [("username", VStr "mchen");
                             ("role", VStr "teacher")])]
            [[("$unwind", VStr "$schedule_details.days")];
             [("$group", VDict [])]; []]
  = Ok [].
Proof.
  apply aggregate_without_schedules_is_empty.
  intros key fields [[= <- <-]|[]]. reflexivity.
Defined.

(** ** [update_one] through an id *)

Lemma find_one_by_key (data : store) (k : value) (stored : doc) :
  store_ok data ->
  In (k, stored) data ->
  find_one data (Some [("_id", k)]) = Ok (Some (with_id k stored)).
Proof.
  intros [Hkeys Hdist] Hin. unfold find_one. cbn [find].
  rewrite find_loop_id.
  assert (Hfirst : exists rest,
             filter (fun kv => py_eq (fst kv) k) data = (k, stored) :: rest).
  { destruct (Hkeys _ _ Hin) as [Hh _]. clear Hkeys.
    induction data as [|[k0 v0] data IH]; [destruct Hin|].
    destruct Hdist as [Hhead Hrest]. cbn [filter fst].
    destruct Hin as [[= -> ->]|Hin].
    - rewrite (hashable_eq_refl _ Hh). eauto.
    - rewrite (Hhead _ _ Hin). auto. }
  destruct Hfirst as (rest & ->). reflexivity.
Qed.

Lemma with_id_key (k : value) (stored : doc) :
  ~ In "_id" (map fst stored) ->
  exists entry rest,
    with_id k stored = entry :: rest /\
    dict_get "_id" (with_id k stored) = Some k.
Proof.
  intros Hno.
  assert (Hid : dict_get "_id" (with_id k stored) = Some k).
  { unfold with_id. now rewrite dict_get_update_absent. }
  destruct (with_id k stored) as [|entry rest]; [discriminate|eauto].
Qed.

(** X18: on a store built by [insert_one], [update_one({"_id": k}, U)]
    for a stored id [k] and an update with the one operator ["$push"]
    (or ["$pull"]) holding one pair applies that pair to the document
    stored under [k] and reports one modified document; when the pair
    raises, the store is as it was. *)
Theorem update_one_by_id_applies_the_pair
        (data : store) (k : value) (stored : doc)
        (key : string) (value : Py.value) :
  store_ok data ->
  In (k, stored) data ->
  update_one data (Some [("_id", k)]) [("$push", VDict [(key, value)])] =
  match on_stored push_field k data key value with
  | Ok data' => (data', Ok {| modified_count := 1 |})
  | Raise e => (data, Raise e)
  end
  /\
  update_one data (Some [("_id", k)]) [("$pull", VDict [(key, value)])] =
  match on_stored pull_field k data key value with
  | Ok data' => (data', Ok {| modified_count := 1 |})
  | Raise e => (data, Raise e)
  end.
Proof.
  intros Hok Hin. pose proof (find_one_by_key _ _ _ Hok Hin) as Hfind.
  destruct Hok as [Hkeys _]. destruct (Hkeys _ _ Hin) as [_ Hno].
  destruct (with_id_key k stored Hno) as (entry & rest & Hw & Hid).
  rewrite Hw in Hfind, Hid.
  split; unfold update_one; rewrite Hfind, Hid;
    cbn [apply_operator dict_get String.eqb Ascii.eqb Bool.eqb run_pairs].
  - destruct (on_stored push_field k data key value); reflexivity.
  - destruct (on_stored pull_field k data key value); reflexivity.
Qed.

Lemma update_one_by_id_applies_the_pair_witness :
  update_one [(VStr "Chess Club", [("participants", VList [VStr "a@x.edu"])])]
             (Some [("_id", VStr "Chess Club")])
             [("$push", VDict [("participants", VStr "b@x.edu")])]
  = ([(VStr "Chess Club",
       [("participants", VList [VStr "a@x.edu"; VStr "b@x.edu"])])],
     Ok {| modified_count := 1 |}).
Proof.
  refine (proj1 (update_one_by_id_applies_the_pair
                   [(VStr "Chess Club",
                     [("participants", VList [VStr "a@x.edu"])])]
                   (VStr "Chess Club")
                   [("participants", VList [VStr "a@x.edu"])]
                   "participants" (VStr "b@x.edu") _ _)).
  - split.
    + intros k v [[= <- <-]|[]]. split; auto. simpl. intuition discriminate.
    + simpl. split; auto. intros ? ? [].
  - now left.
Defined.

(** ** [find]: the id clause and the set-membership clause *)

(** X19: the clause [{"_id": I}] compares [I] with the key a document is
    stored under: [find] returns the documents whose key equals [I], on
    every store and without raising. *)
Theorem find_by_id_selects_by_key (data : store) (I : value) :
  find data (Some [("_id", I)]) =
  Ok (map (fun kv => with_id (fst kv) (snd kv))
          (filter (fun kv => py_eq (fst kv) I) data)).
Proof.
  cbn [find]. apply find_loop_id.
Qed.

Lemma membership_clause_hits key fields q_key q_value candidates :
  contains_dot q_key = true ->
  in_marker q_value = Some (VList candidates) ->
  path_to_list q_key fields ->
  match_query key fields true [(q_key, q_value)] =
  Ok (path_hits q_key candidates fields).
Proof.
  intros Hdot Hmark Hl. pose proof (id_key_has_no_dot _ Hdot) as Hid.
  pose proof (descend_resolve (split_dot q_key) (VDict fields) true) as Hd.
  cbn [match_query]. unfold clause_step, path_hits.
  unfold path_to_list in Hl. rewrite Hid, Hdot, Hmark.
  destruct (resolve_path (split_dot q_key) (VDict fields))
    as [[| | | |xs|]|]; try contradiction.
  - rewrite Hd. cbn [py_iter bind]. rewrite py_any_in_list. cbn [bind].
    destruct (existsb _ candidates); reflexivity.
  - destruct (descend (split_dot q_key) (VDict fields) true) as [nv m].
    cbn [snd] in Hd. subst m. reflexivity.
Qed.

(** X20: on a collection in which the path, where it resolves, leads to a
    list, the query [{path: {"$in": [candidates]}}] returns exactly the
    documents in which the path resolves to a list holding an item equal
    to some candidate, in store order, and does not raise. *)
Theorem find_by_membership
        (data : store) (q_key : string) (q_value : value)
        (candidates : list value) :
  contains_dot q_key = true ->
  in_marker q_value = Some (VList candidates) ->
  (forall key fields, In (key, fields) data -> path_to_list q_key fields) ->
  find data (Some [(q_key, q_value)]) =
  Ok (map (fun kv => with_id (fst kv) (snd kv))
          (filter (fun kv => path_hits q_key candidates (snd kv)) data)).
Proof.
  intros Hdot Hmark Hlists. cbn [find].
  induction data as [|[k v] data IH]; auto.
  cbn [find_loop].
  rewrite (membership_clause_hits k v q_key q_value candidates Hdot Hmark)
    by (apply (Hlists k); now left).
  cbn [bind].
  rewrite IH by (intros key fields Hin; apply (Hlists key); now right).
  cbn [bind filter fst snd].
  destruct (path_hits q_key candidates v); reflexivity.
Qed.

Lemma find_by_membership_witness :
  find [(VStr "Chess Club",
         [("schedule_details",
           VDict [("days", VList [VStr "Monday"; VStr "Friday"])])]);
        (VStr "Math Club",
         [("schedule_details", VDict [("days", VList [VStr "Tuesday"])])]);
        (VStr "mchen", [("role", VStr "teacher")])]
       (Some [("schedule_details.days",
               VDict [("$in", VList [VStr "Friday"; VStr "Sunday"])])])
  = Ok [[("_id", VStr "Chess Club");
         ("schedule_details",
          VDict [("days", VList [VStr "Monday"; VStr "Friday"])])]].
Proof.
  refine (find_by_membership
            [(VStr "Chess Club",
              [("schedule_details",
                VDict [("days", VList [VStr "Monday"; VStr "Friday"])])]);
             (VStr "Math Club",
              [("schedule_details", VDict [("days", VList [VStr "Tuesday"])])]);
             (VStr "mchen", [("role", VStr "teacher")])]
            "schedule_details.days"
            (VDict [("$in", VList [VStr "Friday"; VStr "Sunday"])])
            [VStr "Friday"; VStr "Sunday"] _ _ _).
  - reflexivity.
  - reflexivity.
  - intros key fields [[= <- <-]|[[= <- <-]|[[= <- <-]|[]]]]; exact Logic.I.
Defined.

(* ================================================================== *)
(** * The dotted-path clause, through [find] *)

(** C3, as amended: a clause whose key contains a dot is evaluated by
    descending the document through the path segments in order (the loop
    ends on the value the path resolves to).  When a segment is missing or
    a value on the way is not a mapping, the document fails the clause:
    whatever clauses follow, it does not pass the query, and [find] does
    not return it.  When the path resolves to a sequence and the query
    value is a mapping holding ["$in"] with a sequence of candidates, the
    document passes the clause exactly when some candidate equals some item
    of the resolved sequence: the clauses that follow are then evaluated,
    and with this clause alone [find] returns the document; otherwise it
    does not.  On a collection where the path leads to sequences wherever
    it resolves, [find] returns exactly the documents that pass. *)
Theorem dotted_clause_semantics
        (key : value) (fields : doc) (q_key : string) (q_value : value) :
  contains_dot q_key = true ->
  (forall r,
     resolve_path (split_dot q_key) (VDict fields) = Some r ->
     descend (split_dot q_key) (VDict fields) true = (r, true))
  /\
  (resolve_path (split_dot q_key) (VDict fields) = None ->
     (forall rest,
        match_query key fields true ((q_key, q_value) :: rest) = Ok false) /\
     find [(key, fields)] (Some [(q_key, q_value)]) = Ok [])
  /\
  (forall candidates xs,
     resolve_path (split_dot q_key) (VDict fields) = Some (VList xs) ->
     in_marker q_value = Some (VList candidates) ->
     exists hit,
       (hit = true <->
        exists c x, In c candidates /\ In x xs /\ py_eq x c = true) /\
       (forall rest,
          match_query key fields true ((q_key, q_value) :: rest) =
          if hit then match_query key fields true rest else Ok false) /\
       find [(key, fields)] (Some [(q_key, q_value)]) =
       Ok (if hit then [with_id key fields] else []))
  /\
  (forall data candidates,
     in_marker q_value = Some (VList candidates) ->
     (forall k f, In (k, f) data -> path_to_list q_key f) ->
     find data (Some [(q_key, q_value)]) =
     Ok (map (fun kv => with_id (fst kv) (snd kv))
             (filter (fun kv => path_hits q_key candidates (snd kv)) data))).
Proof.
  intros Hdot. pose proof (id_key_has_no_dot _ Hdot) as Hid.
  pose proof (descend_resolve (split_dot q_key) (VDict fields) true) as Hd.
  split; [|split; [|split]].
  - intros r Hres. now rewrite Hres in Hd.
  - intros Hnone. rewrite Hnone in Hd.
    assert (Hstep : clause_step key fields true q_key q_value
                    = Ok (Continue false)).
    { unfold clause_step. rewrite Hid, Hdot.
      destruct (descend (split_dot q_key) (VDict fields) true) as [nv m].
      simpl in Hd. subst m. reflexivity. }
    assert (Hrest : forall rest,
               match_query key fields true ((q_key, q_value) :: rest)
               = Ok false).
    { intros rest. cbn [match_query]. rewrite Hstep. cbn [bind].
      apply match_query_false. }
    split; [exact Hrest|].
    cbn [find find_loop]. rewrite Hrest. reflexivity.
  - intros candidates xs Hres Hmark. rewrite Hres in Hd.
    set (hit := existsb (fun c => existsb (fun x => py_eq x c) xs) candidates).
    assert (Hstep : clause_step key fields true q_key q_value
                    = Ok (Continue hit)).
    { unfold clause_step. rewrite Hid, Hdot, Hd, Hmark.
      cbn [py_iter bind]. rewrite py_any_in_list. cbn [bind].
      fold hit. now destruct hit. }
    assert (Hrest : forall rest,
               match_query key fields true ((q_key, q_value) :: rest) =
               if hit then match_query key fields true rest else Ok false).
    { intros rest. cbn [match_query]. rewrite Hstep. cbn [bind].
      destruct hit; auto. apply match_query_false. }
    exists hit. split; [|split; [exact Hrest|]].
    + unfold hit. rewrite existsb_exists. split.
      * intros (c & Hc & Hx). apply existsb_exists in Hx.
        destruct Hx as (x & Hx & He). eauto.
      * intros (c & x & Hc & Hx & He). exists c. split; auto.
        apply existsb_exists. eauto.
    + cbn [find find_loop]. rewrite Hrest. cbn [match_query].
      now destruct hit.
  - intros data candidates Hmark Hlists. cbn [find].
    induction data as [|[k v] data IH]; auto.
    cbn [find_loop].
    rewrite (membership_clause_hits k v q_key q_value candidates Hdot Hmark)
      by (apply (Hlists k); now left).
    cbn [bind].
    rewrite IH by (intros k' f Hin; apply (Hlists k'); now right).
    cbn [bind filter fst snd].
    destruct (path_hits q_key candidates v); reflexivity.
Qed.

Lemma dotted_clause_semantics_witness :
  exists hit,
    (hit = true <->
     exists c x, In c [VStr "Sunday"; VStr "Friday"] /\
                 In x [VStr "Monday"; VStr "Friday"] /\ py_eq x c = true) /\
    (forall rest,
       match_query (VStr "Chess Club")
         [("schedule_details",
           VDict [("days", VList [VStr "Monday"; VStr "Friday"])])]
         true
         (("schedule_details.days",
           VDict [("$in", VList [VStr "Sunday"; VStr "Friday"])]) :: rest) =
       if hit
       then match_query (VStr "Chess Club")
              [("schedule_details",
                VDict [("days", VList [VStr "Monday"; VStr "Friday"])])]
              true rest
       else Ok false) /\
    find [(VStr "Chess Club",
           [("schedule_details",
             VDict [("days", VList [VStr "Monday"; VStr "Friday"])])])]
         (Some [("schedule_details.days",
                 VDict [("$in", VList [VStr "Sunday"; VStr "Friday"])])]) =
    Ok (if hit
        then [with_id (VStr "Chess Club")
                [("schedule_details",
                  VDict [("days", VList [VStr "Monday"; VStr "Friday"])])]]
        else []).
Proof.
  refine (proj1 (proj2 (proj2
            (dotted_clause_semantics (VStr "Chess Club")
               [("schedule_details",
                 VDict [("days", VList [VStr "Monday"; VStr "Friday"])])]
               "schedule_details.days"
               (VDict [("$in", VList [VStr "Sunday"; VStr "Friday"])]) _)))
            [VStr "Sunday"; VStr "Friday"] [VStr "Monday"; VStr "Friday"] _ _);
    reflexivity.
Defined.

(** C3 as stated fails: where the path resolves to text, [in] is a
    substring test that rejects a candidate that is not text; with the
    candidates [1] and ["Mon"] against ["Monday"] a candidate is contained,
    yet [find] raises [TypeError] at the first one and no document passes
    the clause. *)
Lemma membership_on_text_raises :
  let fields := [("a", VDict [("b", VStr "Monday")])] in
  let candidates := [VInt 1; VStr "Mon"] in
  contains_dot "a.b" = true /\
  resolve_path (split_dot "a.b") (VDict fields) = Some (VStr "Monday") /\
  py_contains (VStr "Mon") (VStr "Monday") = Ok true /\
  find [(VStr "x", fields)] (Some [("a.b", VDict [("$in", VList candidates)])])
  = Raise TypeError /\
  ~ membership_as_stated (VStr "x") fields "a.b" candidates (VStr "Monday").
Proof.
  cbv zeta. repeat split; try reflexivity.
  intros [_ Hback].
  assert (H : match_query (VStr "x") [("a", VDict [("b", VStr "Monday")])] true
                [("a.b", VDict [("$in", VList [VInt 1; VStr "Mon"])])]
              = Ok true).
  { apply Hback. exists (VStr "Mon"). split; [right; now left|reflexivity]. }
  discriminate H.
Qed.

(* ================================================================== *)
(** * The operator pairs, through [update_one] *)

(** Once the match designates an id, [update_one] is the ["$push"] loop
    followed, when that returns, by the ["$pull"] loop. *)
Lemma update_one_matched
      (data : store) (Q : option doc) (U found : doc) (doc_id : value) :
  find_one data Q = Ok (Some found) ->
  dict_get "_id" found = Some doc_id ->
  update_one data Q U =
  match apply_operator "$push" (on_stored push_field doc_id) data U with
  | (data1, Raise e) => (data1, Raise e)
  | (data1, Ok _) =>
      match apply_operator "$pull" (on_stored pull_field doc_id) data1 U with
      | (data2, Raise e) => (data2, Raise e)
      | (data2, Ok _) => (data2, Ok {| modified_count := 1 |})
      end
  end.
Proof.
  intros Hfind Hid. unfold update_one. rewrite Hfind.
  destruct found as [|entry found]; [discriminate Hid|]. now rewrite Hid.
Qed.

(** A loop over pairs with one more pair at its end. *)
Lemma run_pairs_snoc
      (step : store -> string -> value -> result store)
      (before : doc) (key : string) (value : Py.value) :
  forall data,
    run_pairs step data (before ++ [(key, value)]) =
    match run_pairs step data before with
    | (reached, Ok _) =>
        match step reached key value with
        | Ok data' => (data', Ok tt)
        | Raise e => (reached, Raise e)
        end
    | (reached, Raise e) => (reached, Raise e)
    end.
Proof.
  induction before as [|[k v] before IH]; intros data; cbn [app run_pairs].
  - destruct (step data key value); reflexivity.
  - destruct (step data k v); auto.
Qed.

Lemma with_pull_push (U pairs : doc)
      (step : store -> string -> value -> result store) (data : store) :
  apply_operator "$push" step data (with_pull U pairs) =
  apply_operator "$push" step data U.
Proof.
  unfold apply_operator, with_pull.
  rewrite dict_get_set_neq by discriminate. reflexivity.
Qed.

Lemma with_pull_pull (U pairs : doc)
      (step : store -> string -> value -> result store) (data : store) :
  apply_operator "$pull" step data (with_pull U pairs) =
  run_pairs step data pairs.
Proof.
  unfold apply_operator, with_pull. now rewrite dict_get_set_eq.
Qed.

(** What [update_one] does with one more ["$pull"] pair, from the store
    the pairs before it left. *)
Lemma update_one_next_pull
      (data reached : store) (Q : option doc) (U found before : doc)
      (doc_id : value) (key : string) (value : Py.value) (r : UpdateResult) :
  find_one data Q = Ok (Some found) ->
  dict_get "_id" found = Some doc_id ->
  update_one data Q (with_pull U before) = (reached, Ok r) ->
  update_one data Q (with_pull U (before ++ [(key, value)])) =
  match on_stored pull_field doc_id reached key value with
  | Ok data' => (data', Ok {| modified_count := 1 |})
  | Raise e => (reached, Raise e)
  end.
Proof.
  intros Hfind Hid Hbefore.
  rewrite (update_one_matched _ _ _ _ _ Hfind Hid) in Hbefore.
  rewrite (update_one_matched _ _ _ _ _ Hfind Hid).
  rewrite with_pull_push in Hbefore. rewrite with_pull_push.
  destruct (apply_operator "$push" (on_stored push_field doc_id) data U)
    as [data1 [u|e]]; [|discriminate].
  rewrite with_pull_pull in Hbefore. rewrite with_pull_pull.
  rewrite run_pairs_snoc.
  destruct (run_pairs (on_stored pull_field doc_id) data1 before)
    as [data2 [u'|e]]; [|discriminate].
  injection Hbefore as -> _.
  destruct (on_stored pull_field doc_id reached key value); reflexivity.
Qed.

(** C7, as amended: for a pair [key, value] of ["$pull"] that [update_one]
    reaches (the query matches, the match designates a stored document,
    and the operators and pairs before this one have been applied without
    raising), in the document as they left it: when the field holds a
    sequence with an item equal to [value], [update_one] up to this pair
    reports one modified document and the field then holds that sequence
    without the first such item, and only it; when the field is absent, or
    holds a sequence without [value], the pair changes nothing in the
    store. *)
Theorem pull_removes_first_occurrence
        (data reached : store) (Q : option doc) (U found before after : doc)
        (doc_id : value) (key : string) (value : Py.value)
        (r : UpdateResult) (stored : doc) :
  find_one data Q = Ok (Some found) ->
  dict_get "_id" found = Some doc_id ->
  dict_get "$pull" U = Some (VDict (before ++ (key, value) :: after)) ->
  update_one data Q (with_pull U before) = (reached, Ok r) ->
  store_get doc_id reached = Ok stored ->
  (forall l,
     dict_get key stored = Some (VList l) ->
     existsb (fun x => py_eq x value) l = true ->
     exists l1 x l2 data' stored',
       l = l1 ++ x :: l2 /\
       py_eq x value = true /\
       (forall y, In y l1 -> py_eq y value = false) /\
       update_one data Q (with_pull U (before ++ [(key, value)])) =
       (data', Ok {| modified_count := 1 |}) /\
       store_get doc_id data' = Ok stored' /\
       dict_get key stored' = Some (VList (l1 ++ l2)))
  /\
  (dict_get key stored = None ->
     update_one data Q (with_pull U (before ++ [(key, value)])) =
     (reached, Ok {| modified_count := 1 |}))
  /\
  (forall l,
     dict_get key stored = Some (VList l) ->
     existsb (fun x => py_eq x value) l = false ->
     update_one data Q (with_pull U (before ++ [(key, value)])) =
     (reached, Ok {| modified_count := 1 |})).
Proof.
  intros Hfind Hid _ Hbefore Hget.
  pose proof (store_get_inv _ _ _ Hget) as [_ Hlook].
  rewrite (update_one_next_pull _ _ _ _ _ _ _ _ _ _ Hfind Hid Hbefore).
  unfold on_stored. rewrite Hget. cbn [bind]. unfold pull_field.
  split; [|split].
  - intros l Hfield Hin.
    destruct (list_remove_first value l Hin)
      as (l1 & x & l2 & Hl & Hx & Hfirst & Hrem).
    exists l1, x, l2.
    exists (store_set doc_id (dict_set key (VList (l1 ++ l2)) stored) reached),
           (dict_set key (VList (l1 ++ l2)) stored).
    repeat split; auto.
    + rewrite Hfield. cbn [py_contains bind]. rewrite Hin, Hrem. reflexivity.
    + eapply store_get_set; eauto.
    + apply dict_get_set_eq.
  - intros Hnone. rewrite Hnone. cbn [bind].
    now rewrite (store_set_same _ _ _ Hlook).
  - intros l Hfield Hout. rewrite Hfield. cbn [py_contains bind].
    rewrite Hout. cbn [bind]. now rewrite (store_set_same _ _ _ Hlook).
Qed.

Lemma pull_removes_first_occurrence_witness :
  exists l1 x l2 data' stored',
    [VStr "a@x.edu"; VStr "b@x.edu"; VStr "a@x.edu"] = l1 ++ x :: l2 /\
    py_eq x (VStr "a@x.edu") = true /\
    (forall y, In y l1 -> py_eq y (VStr "a@x.edu") = false) /\
    update_one
      [(VStr "Chess Club",
        [("participants",
          VList [VStr "a@x.edu"; VStr "b@x.edu"; VStr "a@x.edu"])])]
      (Some [("_id", VStr "Chess Club")])
      [("$pull", VDict [("participants", VStr "a@x.edu")])]
    = (data', Ok {| modified_count := 1 |}) /\
    store_get (VStr "Chess Club") data' = Ok stored' /\
    dict_get "participants" stored' = Some (VList (l1 ++ l2)).
Proof.
  refine (proj1 (pull_removes_first_occurrence
                   [(VStr "Chess Club",
                     [("participants",
                       VList [VStr "a@x.edu"; VStr "b@x.edu"; VStr "a@x.edu"])])]
                   [(VStr "Chess Club",
                     [("participants",
                       VList [VStr "a@x.edu"; VStr "b@x.edu"; VStr "a@x.edu"])])]
                   (Some [("_id", VStr "Chess Club")])
                   [("$pull", VDict [("participants", VStr "a@x.edu")])]
                   [("_id", VStr "Chess Club");
                    ("participants",
                     VList [VStr "a@x.edu"; VStr "b@x.edu"; VStr "a@x.edu"])]
                   [] [] (VStr "Chess Club") "participants" (VStr "a@x.edu")
                   {| modified_count := 1 |}
                   [("participants",
                     VList [VStr "a@x.edu"; VStr "b@x.edu"; VStr "a@x.edu"])]
                   _ _ _ _ _)
                [VStr "a@x.edu"; VStr "b@x.edu"; VStr "a@x.edu"] _ _);
    reflexivity.
Defined.

(** C7 as stated fails: on a store [update_one] itself builds (a ["$push"]
    onto ["_id"] leaves the stored document with an ["_id"] field of its
    own), the matched document holds the value under [participants], yet
    the ["$pull"] pair raises [TypeError] at [self.data[doc_id]] and
    removes nothing. *)
Lemma pull_on_matched_document_raises :
  let data :=
    fst (update_one
           [(VStr "Chess Club", [("participants", VList [VStr "a@x.edu"])])]
           (Some [("_id", VStr "Chess Club")])
           [("$push", VDict [("_id", VStr "x")])]) in
  let Q := Some [("_id", VStr "Chess Club")] in
  fmap (option_map (dict_get "participants")) (find_one data Q)
  = Ok (Some (Some (VList [VStr "a@x.edu"]))) /\
  update_one data Q [("$pull", VDict [("participants", VStr "a@x.edu")])]
  = (data, Raise TypeError) /\
  ~ first_occurrence_pulled data Q "participants" (VStr "a@x.edu")
      [VStr "a@x.edu"].
Proof.
  cbv zeta. split; [reflexivity|]. split; [reflexivity|].
  intros (data' & r & l1 & x & l2 & Hup & _). discriminate Hup.
Qed.

(** What [update_one] does with one more ["$push"] pair, from the store
    the pairs before it left. *)
Lemma update_one_next_push
      (data reached : store) (Q : option doc) (found before : doc)
      (doc_id : value) (key : string) (value : Py.value) (r : UpdateResult) :
  find_one data Q = Ok (Some found) ->
  dict_get "_id" found = Some doc_id ->
  update_one data Q (push_only before) = (reached, Ok r) ->
  update_one data Q (push_only (before ++ [(key, value)])) =
  match on_stored push_field doc_id reached key value with
  | Ok data' => (data', Ok {| modified_count := 1 |})
  | Raise e => (reached, Raise e)
  end.
Proof.
  intros Hfind Hid Hbefore.
  rewrite (update_one_matched _ _ _ _ _ Hfind Hid) in Hbefore.
  rewrite (update_one_matched _ _ _ _ _ Hfind Hid).
  unfold push_only in *.
  cbn [apply_operator dict_get String.eqb Ascii.eqb Bool.eqb] in Hbefore |- *.
  rewrite run_pairs_snoc.
  destruct (run_pairs (on_stored push_field doc_id) data before)
    as [data1 [u|e]]; [|discriminate].
  injection Hbefore as -> _.
  destruct (on_stored push_field doc_id reached key value); reflexivity.
Qed.

(** X11: for a pair [key, value] of ["$push"] that [update_one] reaches
    (the query matches, the match designates a stored document, the pairs
    before this one have been applied), in the document as they left it: a
    list under [key] is, after the pair, that list with [value] at its
    end; an absent field then holds the one-item list; and any other value
    under [key] makes [update_one] raise [AttributeError], the store
    staying as the pairs before left it. *)
Theorem push_appends_or_creates
        (data reached : store) (Q : option doc) (found before : doc)
        (doc_id : value) (key : string) (value : Py.value)
        (r : UpdateResult) (stored : doc) :
  find_one data Q = Ok (Some found) ->
  dict_get "_id" found = Some doc_id ->
  update_one data Q (push_only before) = (reached, Ok r) ->
  store_get doc_id reached = Ok stored ->
  (forall l,
     dict_get key stored = Some (VList l) ->
     exists data' stored',
       update_one data Q (push_only (before ++ [(key, value)])) =
       (data', Ok {| modified_count := 1 |}) /\
       store_get doc_id data' = Ok stored' /\
       dict_get key stored' = Some (VList (l ++ [value])))
  /\
  (dict_get key stored = None ->
     exists data' stored',
       update_one data Q (push_only (before ++ [(key, value)])) =
       (data', Ok {| modified_count := 1 |}) /\
       store_get doc_id data' = Ok stored' /\
       dict_get key stored' = Some (VList [value]))
  /\
  (forall x,
     dict_get key stored = Some x ->
     (forall l, x <> VList l) ->
     update_one data Q (push_only (before ++ [(key, value)])) =
     (reached, Raise AttributeError)).
Proof.
  intros Hfind Hid Hbefore Hget.
  rewrite (update_one_next_push _ _ _ _ _ _ _ _ _ Hfind Hid Hbefore).
  unfold on_stored. rewrite Hget. cbn [bind]. unfold push_field, dict_mem.
  split; [|split].
  - intros l ->. cbn [bind]. do 2 eexists. split; [reflexivity|]. split.
    + eapply store_get_set; eauto.
    + apply dict_get_set_eq.
  - intros ->. cbn [bind]. do 2 eexists. split; [reflexivity|]. split.
    + eapply store_get_set; eauto.
    + apply dict_get_set_eq.
  - intros x -> Hx. destruct x; try reflexivity. now destruct (Hx l).
Qed.

Lemma push_appends_or_creates_witness :
  exists data' stored',
    update_one
      [(VStr "Chess Club", [("participants", VList [VStr "a@x.edu"])])]
      (Some [("_id", VStr "Chess Club")])
      [("$push", VDict [("participants", VStr "b@x.edu")])]
    = (data', Ok {| modified_count := 1 |}) /\
    store_get (VStr "Chess Club") data' = Ok stored' /\
    dict_get "participants" stored'
    = Some (VList ([VStr "a@x.edu"] ++ [VStr "b@x.edu"])).
Proof.
  refine (proj1 (push_appends_or_creates
                   [(VStr "Chess Club",
                     [("participants", VList [VStr "a@x.edu"])])]
                   [(VStr "Chess Club",
                     [("participants", VList [VStr "a@x.edu"])])]
                   (Some [("_id", VStr "Chess Club")])
                   [("_id", VStr "Chess Club");
                    ("participants", VList [VStr "a@x.edu"])]
                   [] (VStr "Chess Club") "participants" (VStr "b@x.edu")
                   {| modified_count := 1 |}
                   [("participants", VList [VStr "a@x.edu"])]
                   _ _ _ _)
                [VStr "a@x.edu"] _);
    reflexivity.
Defined.

Lemma store_set_keeps_keys (k : value) (old d' : doc) (data : store) :
  store_lookup k data = Some old ->
  map fst (store_set k d' data) = map fst data.
Proof.
  induction data as [|[k0 v0] data IH]; simpl; [discriminate|].
  destruct (py_eq k0 k); simpl; auto.
  intros H. now rewrite IH.
Qed.

(** X12: whatever the query and the update, and whether it returns or
    raises, [update_one] leaves the ids of the store as they were: no
    document is added, removed or moved to another place, and
    [count_documents()] is what it was. *)
Theorem update_one_keeps_the_ids
        (data : store) (Q : option doc) (U : doc) :
  map fst (fst (update_one data Q U)) = map fst data /\
  count_documents (fst (update_one data Q U)) None =
  count_documents data None.
Proof.
  assert (Hkeys : map fst (fst (update_one data Q U)) = map fst data).
  { unfold update_one.
    destruct (find_one data Q) as [[[|entry found]|]|]; try reflexivity.
    destruct (dict_get "_id" (entry :: found)) as [doc_id|]; [|reflexivity].
    pose proof (apply_operator_store "$push" push_field doc_id U data) as Hpush.
    destruct (apply_operator "$push" (on_stored push_field doc_id) data U)
      as [data1 r1]; cbn [fst] in Hpush.
    assert (H1 : map fst data1 = map fst data).
    { destruct Hpush as [->|(old & d1 & Hl & ->)]; auto.
      eapply store_set_keeps_keys; eauto. }
    destruct r1 as [u|e]; [|exact H1].
    pose proof (apply_operator_store "$pull" pull_field doc_id U data1)
      as Hpull.
    destruct (apply_operator "$pull" (on_stored pull_field doc_id) data1 U)
      as [data2 r2]; cbn [fst] in Hpull.
    assert (H2 : map fst data2 = map fst data).
    { destruct Hpull as [->|(old & d2 & Hl & ->)]; auto.
      rewrite <- H1. eapply store_set_keeps_keys; eauto. }
    now destruct r2. }
  split; auto.
  unfold count_documents. cbn [query_or_empty find].
  rewrite !find_loop_empty. cbn [fmap]. rewrite !length_map.
  now rewrite <- (length_map fst), Hkeys, length_map.
Qed.
